(** * rotate_cubemap_faces.py: rotation of the top and bottom cubemap faces

    A shallow embedding of [rotate_face] and [main] of
    [rotate_cubemap_faces.py], together with the library operations the
    script calls: the POSIX flavour of [os.path] ([join], [splitext],
    [basename]), a file system keyed by path, and Pillow's
    [Image.rotate(180)].

    Paths and messages are byte strings (the UTF-8 encoding of the Python
    [str] values). The separators ['/'] and ['.'] are ASCII, so searching
    for them in the encoded string finds the same places as in the
    sequence of code points. *)

From Stdlib Require Import ZArith Ascii String List Lia.
From stdpp Require Import gmap strings list.

Local Open Scope Z_scope.

(** ** Python strings *)

Module PyStr.

(** [len(s)] as a Python integer. *)
Definition len (s : string) : Z := Z.of_nat (String.length s).

(** [s.rfind(c)] for a one-character needle: the highest index at which
    [c] occurs, [-1] when it does not occur. *)
Fixpoint rfind (c : ascii) (s : string) : Z :=
  match s with
  | EmptyString => -1
  | String a s' =>
      let r := rfind c s' in
      if 0 <=? r then r + 1
      else if Ascii.eqb a c then 0 else -1
  end.

Fixpoint take (n : nat) (s : string) : string :=
  match n, s with
  | S n', String a s' => String a (take n' s')
  | _, _ => EmptyString
  end.

Fixpoint drop (n : nat) (s : string) : string :=
  match n, s with
  | S n', String _ s' => drop n' s'
  | _, _ => s
  end.

(** A slice bound as Python normalises it: a negative bound counts from
    the end, and the result is clamped to [0 .. len]. *)
Definition bound (n i : Z) : nat :=
  Z.to_nat (if i <? 0 then Z.max 0 (n + i) else Z.min i n).

(** [s[i:j]], [s[:j]] and [s[i:]]. *)
Definition slice (s : string) (i j : Z) : string :=
  let lo := bound (len s) i in
  let hi := bound (len s) j in
  take (hi - lo) (drop lo s).
Definition slice_to (s : string) (j : Z) : string := slice s 0 j.
Definition slice_from (s : string) (i : Z) : string := slice s i (len s).

(** [s.startswith(t)] and [s.endswith(t)]. *)
Fixpoint startswith (s t : string) : bool :=
  match t, s with
  | EmptyString, _ => true
  | String b t', String a s' => Ascii.eqb a b && startswith s' t'
  | String _ _, EmptyString => false
  end.

Definition endswith (s t : string) : bool :=
  String.eqb (slice_from s (len s - len t)) t && (len t <=? len s).

(** Truth value of a string: the empty string is false. *)
Definition truthy (s : string) : bool :=
  match s with EmptyString => false | String _ _ => true end.

End PyStr.

(** ** os.path on POSIX (posixpath and genericpath) *)

Module PosixPath.
Import PyStr.

Definition sep : string := "/".
Definition extsep : string := ".".
Definition sep_char : ascii := "/"%char.
Definition extsep_char : ascii := "."%char.

(** One step of the loop of [posixpath.join]: an absolute component, or
    any component while the path is still empty, replaces the path;
    otherwise the component is appended, after a separator unless the
    path already ends with one. *)
Definition join_step (path b : string) : string :=
  if startswith b sep || negb (truthy path) then b
  else if endswith path sep then path +:+ b
  else path +:+ sep +:+ b.

(** [os.path.join(a, *p)]. *)
Definition join (a : string) (p : list string) : string :=
  fold_left join_step p a.

(** The while loop of [genericpath._splitext], which skips the leading
    dots of the file name: [true] when some character in
    [filenameIndex .. dotIndex - 1] is not a dot (the loop returns the
    split), [false] when the loop runs out. [n] is the number of
    iterations left, [dotIndex - filenameIndex]. *)
Fixpoint splitext_loop (p : string) (n : nat) (filenameIndex : Z) : bool :=
  match n with
  | O => false
  | S n' =>
      if negb (String.eqb (slice p filenameIndex (filenameIndex + 1)) extsep)
      then true
      else splitext_loop p n' (filenameIndex + 1)
  end.

(** [os.path.splitext(p)], that is [genericpath._splitext(p, '/', None, '.')]. *)
Definition splitext (p : string) : string * string :=
  let sepIndex := rfind sep_char p in
  let dotIndex := rfind extsep_char p in
  if (sepIndex <? dotIndex)
     && splitext_loop p (Z.to_nat (dotIndex - (sepIndex + 1))) (sepIndex + 1)
  then (slice_to p dotIndex, slice_from p dotIndex)
  else (p, slice_to p 0).

(** [os.path.basename(p)]. *)
Definition basename (p : string) : string :=
  let i := rfind sep_char p + 1 in
  slice_from p i.

End PosixPath.

(** ** Pillow images *)

Module Pillow.

(** A decoded image: its size and its lines of pixels, line [y] holding
    the pixels [(0, y) .. (width - 1, y)]. *)
Record Image (pixel : Type) : Type := mkImage {
  width : nat;
  height : nat;
  lines : list (list pixel)
}.
Arguments mkImage {pixel} _ _ _.
Arguments width {pixel} _.
Arguments height {pixel} _.
Arguments lines {pixel} _.

Section Images.
Context {pixel : Type}.

(** An image buffer has [height] lines of [width] pixels each. *)
Definition well_formed (im : Image pixel) : Prop :=
  length (lines im) = height im ∧
  Forall (λ line, length line = width im) (lines im).

(** [im.size]. *)
Definition size (im : Image pixel) : nat * nat := (width im, height im).

(** [im.getpixel((x, y))] for coordinates inside the image. *)
Definition getpixel (im : Image pixel) (xy : nat * nat) : option pixel :=
  line ← lines im !! xy.2; line !! xy.1.

(** [im.rotate(180)]. With an angle of 180 and neither a centre nor a
    translation Pillow returns [im.transpose(ROTATE_180)], which copies
    every line back to front into the lines of the output taken from the
    last to the first. *)
Definition rotate_180 (im : Image pixel) : Image pixel :=
  mkImage (width im) (height im) (reverse (reverse <$> lines im)).

End Images.
End Pillow.

(** ** The interpreter state: file system and standard output *)

Module Py.

(** An exception, kept as the text [str(e)] that the script prints. *)
Definition exn : Type := string.

Inductive outcome (A : Type) : Type :=
  | Return (a : A)
  | Raise (e : exn).
Arguments Return {A} _.
Arguments Raise {A} _.

(** Directories and regular files are keyed by the path string the
    script passes to the operating system; every path names its own
    file (a file system without links; the module [Linked] further down
    has them). [stdout] is the list of printed lines, oldest first. *)
Record world : Type := mkWorld {
  dirs : gset string;
  files : gmap string (list Byte.byte);
  stdout : list string
}.

Definition set_files (f : gmap string (list Byte.byte)) (w : world) : world :=
  mkWorld (dirs w) f (stdout w).
Definition add_stdout (s : string) (w : world) : world :=
  mkWorld (dirs w) (files w) (stdout w ++ [s]).

(** A statement either returns a value or raises, and leaves a world. *)
Definition py (A : Type) : Type := world → outcome A * world.

#[global] Instance py_ret : MRet py := λ A a w, (Return a, w).
#[global] Instance py_bind : MBind py := λ A B k m w,
  match m w with
  | (Return a, w') => k a w'
  | (Raise e, w') => (Raise e, w')
  end.

(** [try: body except Exception as e: handler(e)]. *)
Definition try_except {A : Type} (body : py A) (handler : exn → py A) : py A :=
  λ w, match body w with
       | (Return a, w') => (Return a, w')
       | (Raise e, w') => handler e w'
       end.

Definition print (s : string) : py unit := λ w, (Return (), add_stdout s w).

(** [os.path.isdir] and [os.path.isfile]. *)
Definition isdir (p : string) : py bool :=
  λ w, (Return (bool_decide (p ∈ dirs w)), w).
Definition isfile (p : string) : py bool :=
  λ w, (Return (bool_decide (is_Some (files w !! p))), w).

End Py.

(** ** The script *)

Import PyStr PosixPath Pillow Py.

Definition newline : string := String "010"%char "".

(** The image codec and the operating system are taken as given:
    - [image_decode] is what [Image.open] followed by loading the pixel
      data makes of a file's bytes;
    - [image_encode] is the encoder that [Image.save] selects from the
      extension of the file name (an unknown extension raises);
    - [write_error] is the error, if any, with which the operating
      system refuses to create or overwrite a file. *)
Class Platform (pixel : Type) : Type := {
  image_decode : list Byte.byte → outcome (Image pixel);
  image_encode : string → Image pixel → outcome (list Byte.byte);
  write_error : world → string → option exn
}.

Section Script.
Context {pixel : Type} `{Platform pixel}.

Definition no_such_file (p : string) : exn :=
  "[Errno 2] No such file or directory: '" +:+ p +:+ "'".

(** [Image.open(path)], with the pixel data loaded. *)
Definition image_open (path : string) : py (Image pixel) :=
  λ w, match files w !! path with
       | None => (Raise (no_such_file path), w)
       | Some data => (image_decode data, w)
       end.

(** [img.save(path)]: a failed save leaves no file of its own behind.
    What a save that fails half-way does to a file that was there before
    is written out in [Linked.image_save]. *)
Definition image_save (img : Image pixel) (path : string) : py unit :=
  λ w, match image_encode (splitext path).2 img with
       | Raise e => (Raise e, w)
       | Return data =>
           match write_error w path with
           | Some e => (Raise e, w)
           | None => (Return (), set_files (<[path := data]> (files w)) w)
           end
       end.

(** The name under which [rotate_face] saves: [f"{base}_rotated{ext}"]. *)
Definition output_path_of (file_path : string) : string :=
  let '(base, ext) := splitext file_path in
  base +:+ "_rotated" +:+ ext.

Definition saved_message (output_path : string) : string :=
  "✅ Изображение повернуто и сохранено как: " +:+ output_path.

Definition error_message (file_path : string) (e : exn) : string :=
  "❌ Ошибка при обработке " +:+ file_path +:+ ": " +:+ e.

(** The body of the [try] statement of [rotate_face]. *)
Definition rotate_face_try (file_path : string) : py (option string) :=
  img ← image_open file_path;
  let rotated_img := rotate_180 img in
  let output_path := output_path_of file_path in
  image_save rotated_img output_path;;
  print (saved_message output_path);;
  mret (Some output_path).

Definition rotate_face (file_path : string) : py (option string) :=
  try_except (rotate_face_try file_path)
    (λ e, print (error_message file_path e);; mret None).

(** Truth value of what [rotate_face] returned: [None] and the empty
    string are false. *)
Definition is_true (r : option string) : bool :=
  match r with
  | Some s => truthy s
  | None => false
  end.

Definition no_directory_message (base_path : string) : string :=
  "❌ Папка " +:+ base_path +:+ " не существует".

Definition processing_message (base_path : string) : string :=
  "🔄 Обрабатываем грани в папке: " +:+ base_path.

Definition top_missing_message (top_face_path : string) : string :=
  "❌ Файл верхней грани " +:+ top_face_path +:+ " не найден".

Definition bottom_missing_message (bottom_face_path : string) : string :=
  "❌ Файл нижней грани " +:+ bottom_face_path +:+ " не найден".

Definition rename_message (rotated face : string) : string :=
  "ℹ️ Чтобы использовать повернутое изображение, переименуйте "
  +:+ basename rotated +:+ " в " +:+ face.

Definition done_message : string :=
  newline +:+ "✨ Готово! Теперь вы можете использовать повернутые грани в вашей кубической панораме.".

Definition note_message : string :=
  "📝 Примечание: После замены файлов, вы можете убрать параметр flipTopBottom: true в компоненте CubePanoramaViewer.".

(** The directory [main] works in, from [sys.argv]. *)
Definition base_path_of (argv : list string) : string :=
  if 1 <? Z.of_nat (length argv) then default "" (argv !! 1%nat)
  else join "public" ["vr"; "willow"].

Definition main (argv : list string) : py unit :=
  let base_path := base_path_of argv in
  is_dir ← isdir base_path;
  if negb is_dir then
    print (no_directory_message base_path)
  else
    print (processing_message base_path);;
    let top_face_path := join base_path ["u.jpg"] in
    let bottom_face_path := join base_path ["d.jpg"] in
    top_is_file ← isfile top_face_path;
    (if negb top_is_file then
       print (top_missing_message top_face_path)
     else
       rotated_top ← rotate_face top_face_path;
       if is_true rotated_top
       then print (rename_message (default "" rotated_top) "u.jpg")
       else mret ());;
    bottom_is_file ← isfile bottom_face_path;
    (if negb bottom_is_file then
       print (bottom_missing_message bottom_face_path)
     else
       rotated_bottom ← rotate_face bottom_face_path;
       if is_true rotated_bottom
       then print (rename_message (default "" rotated_bottom) "d.jpg")
       else mret ());;
    print done_message;;
    print note_message.

End Script.

(** ** A codec to run the script on: one-line images of raw bytes *)

Module RawCodec.

Definition decode (data : list Byte.byte) : outcome (Image Byte.byte) :=
  match data with
  | [] => Raise "cannot identify image file"
  | _ => Return (mkImage (length data) 1 [data])
  end.

Definition encode (ext : string) (im : Image Byte.byte) : outcome (list Byte.byte) :=
  if String.eqb ext ".jpg" then Return (concat (lines im))
  else Raise ("unknown file extension: " +:+ ext).

Definition always_writable (w : world) (p : string) : option exn := None.

Definition read_only (w : world) (p : string) : option exn :=
  Some ("[Errno 13] Permission denied: '" +:+ p +:+ "'").

#[global] Instance writable : Platform Byte.byte :=
  {| image_decode := decode; image_encode := encode; write_error := always_writable |}.

Definition protected : Platform Byte.byte :=
  {| image_decode := decode; image_encode := encode; write_error := read_only |}.

Definition three_bytes : list Byte.byte := [Byte.x01; Byte.x02; Byte.x03].

(** A directory [pano] holding both faces. *)
Definition both_faces : world :=
  mkWorld {["pano"]}
    (<["pano/u.jpg" := three_bytes]> (<["pano/d.jpg" := [Byte.x0a; Byte.x0b]]> ∅)) [].

(** A directory [pano] holding the bottom face only. *)
Definition bottom_only : world :=
  mkWorld {["pano"]} (<["pano/d.jpg" := [Byte.x0a; Byte.x0b]]> ∅) [].

(** A directory [pano] whose top face is an empty file, which does not
    decode. *)
Definition top_corrupt : world :=
  mkWorld {["pano"]}
    (<["pano/u.jpg" := []]> (<["pano/d.jpg" := [Byte.x0a; Byte.x0b]]> ∅)) [].


(** A picture of three columns and two lines. *)
Definition picture : Image Byte.byte :=
  mkImage 3 2 [[Byte.x01; Byte.x02; Byte.x03]; [Byte.x04; Byte.x05; Byte.x06]].

Definition command_line : list string := ["rotate_cubemap_faces.py"; "pano"].

(** A directory [pano] holding neither face. *)
Definition no_faces : world :=
  mkWorld {["pano"]} (<["pano/readme.txt" := three_bytes]> ∅) [].

End RawCodec.

(** ** The script over a file system with links *)

(** The world above gives every path name a file of its own. On a real
    file system two names can denote one file (a symbolic link to a file,
    a second hard link, another spelling of a path), and [Image.save]
    opens the name it is given with mode [w+b], which follows such a
    link. This module runs the same script over a file system that has
    links, with [Image.save] written out stage by stage. *)

Module Linked.

(** [links] maps a name to the name under which the file it denotes is
    stored in [files]; a name that is not in [links] denotes itself. *)
Record world : Type := mkWorld {
  dirs : gset string;
  links : gmap string string;
  files : gmap string (list Byte.byte);
  stdout : list string
}.

Definition set_links (l : gmap string string) (w : world) : world :=
  mkWorld (dirs w) l (files w) (stdout w).
Definition set_files (f : gmap string (list Byte.byte)) (w : world) : world :=
  mkWorld (dirs w) (links w) f (stdout w).
Definition add_stdout (s : string) (w : world) : world :=
  mkWorld (dirs w) (links w) (files w) (stdout w ++ [s]).

(** The name under which the file that [p] denotes is stored. *)
Definition resolve (w : world) (p : string) : string :=
  default p (links w !! p).

(** The bytes that reading the file at [p] gives. *)
Definition content (w : world) (p : string) : option (list Byte.byte) :=
  files w !! resolve w p.

Definition py (A : Type) : Type := world → outcome A * world.

#[global] Instance py_ret : MRet py := λ A a w, (Return a, w).
#[global] Instance py_bind : MBind py := λ A B k m w,
  match m w with
  | (Return a, w') => k a w'
  | (Raise e, w') => (Raise e, w')
  end.

(** [try: body except Exception as e: handler(e)]. *)
Definition try_except {A : Type} (body : py A) (handler : exn → py A) : py A :=
  λ w, match body w with
       | (Return a, w') => (Return a, w')
       | (Raise e, w') => handler e w'
       end.

Definition print (s : string) : py unit := λ w, (Return (), add_stdout s w).

(** [os.path.isdir], [os.path.isfile] and [os.path.exists] follow links. *)
Definition isdir (p : string) : py bool :=
  λ w, (Return (bool_decide (resolve w p ∈ dirs w)), w).
Definition isfile (p : string) : py bool :=
  λ w, (Return (bool_decide (is_Some (content w p))), w).
Definition path_exists (w : world) (p : string) : bool :=
  bool_decide (resolve w p ∈ dirs w) || bool_decide (is_Some (content w p)).

(** The codec and the operating system:
    - [image_decode] is what [Image.open] followed by loading the pixel
      data makes of a file's bytes;
    - [extension_error] is the error that [Image.save] raises, before it
      opens the file, for an extension without a registered format;
    - [open_error] is the error, if any, with which the operating system
      refuses to open a file for writing;
    - [image_encode] gives the bytes that the encoder writes and the
      exception, if any, that it raises after writing them;
    - [remove_refused] tells whether the operating system refuses, with
      a [PermissionError], to remove a name. *)
Class Platform (pixel : Type) : Type := {
  image_decode : list Byte.byte → outcome (Image pixel);
  extension_error : string → option exn;
  open_error : world → string → option exn;
  image_encode : string → Image pixel → list Byte.byte * option exn;
  remove_refused : world → string → bool
}.

Section Script.
Context {pixel : Type} `{Platform pixel}.

(** [Image.open(path)], with the pixel data loaded. *)
Definition image_open (path : string) : py (Image pixel) :=
  λ w, match content w path with
       | None => (Raise (no_such_file path), w)
       | Some data => (image_decode data, w)
       end.

(** [os.remove(path)] inside [try: ... except PermissionError: pass]:
    a link is removed itself, not the file that it denotes. *)
Definition remove_quietly (path : string) (w : world) : world :=
  if remove_refused w path then w
  else match links w !! path with
       | Some _ => set_links (delete path (links w)) w
       | None => set_files (delete path (files w)) w
       end.

(** [img.save(path)]. The format is looked up from the extension; the
    file is opened with mode [w+b], which creates it or empties it, at
    the place that the name denotes; the encoder writes; when the
    encoder raises, the name is removed again if the file did not exist
    before, and the exception is raised anew. *)
Definition image_save (img : Image pixel) (path : string) : py unit :=
  λ w, match extension_error (splitext path).2 with
       | Some e => (Raise e, w)
       | None =>
           let created := negb (path_exists w path) in
           match open_error w path with
           | Some e => (Raise e, w)
           | None =>
               let '(data, failure) := image_encode (splitext path).2 img in
               let w' := set_files (<[resolve w path := data]> (files w)) w in
               match failure with
               | None => (Return (), w')
               | Some e =>
                   (Raise e, if created then remove_quietly path w' else w')
               end
           end
       end.

(** The body of the [try] statement of [rotate_face]. *)
Definition rotate_face_try (file_path : string) : py (option string) :=
  img ← image_open file_path;
  let rotated_img := rotate_180 img in
  let output_path := output_path_of file_path in
  image_save rotated_img output_path;;
  print (saved_message output_path);;
  mret (Some output_path).

Definition rotate_face (file_path : string) : py (option string) :=
  try_except (rotate_face_try file_path)
    (λ e, print (error_message file_path e);; mret None).

Definition main (argv : list string) : py unit :=
  let base_path := base_path_of argv in
  is_dir ← isdir base_path;
  if negb is_dir then
    print (no_directory_message base_path)
  else
    print (processing_message base_path);;
    let top_face_path := join base_path ["u.jpg"] in
    let bottom_face_path := join base_path ["d.jpg"] in
    top_is_file ← isfile top_face_path;
    (if negb top_is_file then
       print (top_missing_message top_face_path)
     else
       rotated_top ← rotate_face top_face_path;
       if is_true rotated_top
       then print (rename_message (default "" rotated_top) "u.jpg")
       else mret ());;
    bottom_is_file ← isfile bottom_face_path;
    (if negb bottom_is_file then
       print (bottom_missing_message bottom_face_path)
     else
       rotated_bottom ← rotate_face bottom_face_path;
       if is_true rotated_bottom
       then print (rename_message (default "" rotated_bottom) "d.jpg")
       else mret ());;
    print done_message;;
    print note_message.

End Script.

(** *** A codec to run the script on *)

(** One-line images of raw bytes, saved under the extensions [.jpg] and
    [.png]; nothing is refused. *)
Definition raw_extension_error (ext : string) : option exn :=
  if String.eqb ext ".jpg" || String.eqb ext ".png" then None
  else Some ("unknown file extension: " +:+ ext).

#[global] Instance raw : Platform Byte.byte := {|
  image_decode := RawCodec.decode;
  extension_error := raw_extension_error;
  open_error := λ _ _, None;
  image_encode := λ _ im, (concat (lines im), None);
  remove_refused := λ _ _, false
|}.

(** The same codec with an encoder that raises after one byte. *)
Definition failing : Platform Byte.byte := {|
  image_decode := RawCodec.decode;
  extension_error := raw_extension_error;
  open_error := λ _ _, None;
  image_encode := λ _ im, (firstn 1 (concat (lines im)), Some "encoder error -2");
  remove_refused := λ _ _, false
|}.

(** A directory [pano] with both faces in which [u_rotated.jpg] is a
    link to [u.jpg]. *)
Definition linked_to_original : world :=
  mkWorld {["pano"]} {["pano/u_rotated.jpg" := "pano/u.jpg"]}
    (<["pano/u.jpg" := RawCodec.three_bytes]>
       (<["pano/d.jpg" := [Byte.x0a; Byte.x0b]]> ∅)) [].

(** A directory [pano] with both faces and no links. *)
Definition both_faces : world :=
  mkWorld {["pano"]} ∅
    (<["pano/u.jpg" := RawCodec.three_bytes]>
       (<["pano/d.jpg" := [Byte.x0a; Byte.x0b]]> ∅)) [].

(** A directory [pano] with a picture [a.png] and an older copy. *)
Definition with_png : world :=
  mkWorld {["pano"]} ∅
    (<["pano/a.png" := RawCodec.three_bytes]>
       (<["pano/a_rotated.png" := [Byte.xff]]> ∅)) [].

End Linked.

(** * Properties *)

(** ** Rotation by 180 degrees *)

Section RotationProperties.
Context {pixel : Type}.
Implicit Types im : Image pixel.

Lemma rotate_180_size im : size (rotate_180 im) = size im.
Proof. reflexivity. Qed.

Lemma rotate_180_well_formed im : well_formed im → well_formed (rotate_180 im).
Proof.
  intros [Hh Hw]. split; simpl.
  - by rewrite length_reverse, length_fmap.
  - apply Forall_reverse, Forall_fmap.
    eapply Forall_impl; [exact Hw|].
    intros line Hline. simpl. by rewrite length_reverse.
Qed.

Lemma rotate_180_line im (y : nat) :
  (y < height im)%nat → length (lines im) = height im →
  lines (rotate_180 im) !! (height im - 1 - y)%nat = reverse <$> lines im !! y.
Proof.
  intros Hy Hh. simpl.
  rewrite reverse_lookup by (rewrite length_fmap; lia).
  rewrite length_fmap, list_lookup_fmap. do 2 f_equal. lia.
Qed.

(** C1. Rotating by 180 degrees keeps the size of the image, and the pixel
    at [(x, y)] of the source is the pixel at
    [(width - 1 - x, height - 1 - y)] of the output. *)
Theorem rotate_180_pixel im (x y : nat) :
  well_formed im → (x < width im)%nat → (y < height im)%nat →
  size (rotate_180 im) = size im ∧
  well_formed (rotate_180 im) ∧
  is_Some (getpixel im (x, y)) ∧
  getpixel (rotate_180 im) ((width im - 1 - x)%nat, (height im - 1 - y)%nat)
    = getpixel im (x, y).
Proof.
  intros Hwf Hx Hy. pose proof Hwf as [Hh Hw].
  destruct (lookup_lt_is_Some_2 (lines im) y) as [line Hline]; [lia|].
  assert (length line = width im) as Hlen
    by exact (Forall_lookup_1 _ _ _ _ Hw Hline).
  split; [done|]. split; [by apply rotate_180_well_formed|].
  unfold getpixel. cbn [fst snd].
  rewrite rotate_180_line, Hline by done. simpl.
  split; [apply lookup_lt_is_Some_2; lia|].
  rewrite reverse_lookup by lia. f_equal. lia.
Qed.

(** C2. Rotating twice by 180 degrees gives back the image. *)
Theorem rotate_180_involutive im : rotate_180 (rotate_180 im) = im.
Proof.
  destruct im as [w h ls]. unfold rotate_180. simpl. f_equal.
  rewrite fmap_reverse, reverse_involutive, <- list_fmap_compose.
  rewrite <- (list_fmap_id ls) at 2.
  apply list_fmap_ext. intros i line _. simpl. apply reverse_involutive.
Qed.

End RotationProperties.

(** ** Strings: concatenation, slices and [rfind] *)

Section StringProperties.
Implicit Types s t u : string.
Implicit Types c a : ascii.

Lemma app_cons a s t : String a s +:+ t = String a (s +:+ t).
Proof. reflexivity. Qed.

Lemma app_nil_l s : "" +:+ s = s.
Proof. reflexivity. Qed.

Lemma app_nil_r s : s +:+ "" = s.
Proof. induction s as [|a s IH]; [done|]. by rewrite app_cons, IH. Qed.

Lemma app_assoc s t u : (s +:+ t) +:+ u = s +:+ (t +:+ u).
Proof. induction s as [|a s IH]; [done|]. by rewrite !app_cons, IH. Qed.

Lemma length_app s t :
  String.length (s +:+ t) = (String.length s + String.length t)%nat.
Proof.
  induction s as [|a s IH]; [done|]. rewrite app_cons. simpl. by rewrite IH.
Qed.

Lemma len_cons a s : len (String a s) = len s + 1.
Proof. unfold len. simpl String.length. lia. Qed.

Lemma len_app s t : len (s +:+ t) = len s + len t.
Proof. unfold len. rewrite length_app. lia. Qed.

Lemma len_nonneg s : 0 ≤ len s.
Proof. unfold len. lia. Qed.

Lemma take_drop (n : nat) s : PyStr.take n s +:+ PyStr.drop n s = s.
Proof.
  revert s. induction n as [|n IH]; intros [|a s]; try done.
  simpl. by rewrite app_cons, IH.
Qed.

Lemma length_take (n : nat) s :
  (n ≤ String.length s)%nat → String.length (PyStr.take n s) = n.
Proof.
  revert s. induction n as [|n IH]; intros [|a s] Hn; simpl in *; try done; try lia.
  rewrite IH; lia.
Qed.

Lemma take_all (n : nat) s : (String.length s ≤ n)%nat → PyStr.take n s = s.
Proof.
  revert s. induction n as [|n IH]; intros [|a s] Hn; simpl in *; try done; try lia.
  rewrite IH; [done|lia].
Qed.

Lemma length_drop (n : nat) s :
  String.length (PyStr.drop n s) = (String.length s - n)%nat.
Proof.
  revert s. induction n as [|n IH]; intros [|a s]; simpl; try lia. apply IH.
Qed.

Lemma take_app_length s t : PyStr.take (String.length s) (s +:+ t) = s.
Proof. induction s as [|a s IH]; [by destruct t|]. rewrite app_cons. simpl. by rewrite IH. Qed.

Lemma drop_app_length s t : PyStr.drop (String.length s) (s +:+ t) = t.
Proof. induction s as [|a s IH]; [done|]. by rewrite app_cons. Qed.

(** Slices whose bounds lie inside the string. *)
Lemma bound_inside (n i : Z) : 0 ≤ i ≤ n → bound n i = Z.to_nat i.
Proof.
  intros Hi. unfold bound. destruct (Z.ltb_spec i 0); [lia|]. f_equal. lia.
Qed.

Lemma slice_to_take s (i : Z) :
  0 ≤ i ≤ len s → slice_to s i = PyStr.take (Z.to_nat i) s.
Proof.
  intros Hi. unfold slice_to, slice.
  rewrite !bound_inside by (pose proof (len_nonneg s); lia).
  simpl. by rewrite Nat.sub_0_r.
Qed.

Lemma slice_from_drop s (i : Z) :
  0 ≤ i ≤ len s → slice_from s i = PyStr.drop (Z.to_nat i) s.
Proof.
  intros Hi. unfold slice_from, slice.
  rewrite !bound_inside by (pose proof (len_nonneg s); lia).
  apply take_all. rewrite length_drop. unfold len. lia.
Qed.

Lemma slice_to_from s (i : Z) :
  0 ≤ i ≤ len s → slice_to s i +:+ slice_from s i = s.
Proof.
  intros Hi. rewrite slice_to_take, slice_from_drop by done. apply take_drop.
Qed.

(** [rfind] returns [-1] or an index of the string. *)
Lemma rfind_bounds c s : -1 ≤ rfind c s < len s.
Proof.
  induction s as [|a s IH]; [unfold len; simpl; lia|].
  rewrite len_cons. simpl.
  destruct (Z.leb_spec 0 (rfind c s)); [lia|].
  destruct (Ascii.eqb a c); lia.
Qed.

(** The last occurrence in a concatenation is the last one in the right
    part when there is one, else the last one in the left part. *)
Lemma rfind_app c s t :
  rfind c (s +:+ t) =
    if 0 <=? rfind c t then len s + rfind c t else rfind c s.
Proof.
  induction s as [|a s IH].
  - rewrite app_nil_l. pose proof (rfind_bounds c t).
    destruct (Z.leb_spec 0 (rfind c t)); unfold len; simpl; lia.
  - rewrite app_cons. simpl rfind. rewrite IH, len_cons.
    pose proof (len_nonneg s).
    destruct (Z.leb_spec 0 (rfind c t)).
    + destruct (Z.leb_spec 0 (len s + rfind c t)); lia.
    + done.
Qed.

(** At the index that [rfind] returns stands the character, and it does
    not occur after it. *)
Lemma rfind_drop c s :
  0 ≤ rfind c s →
  ∃ rest, PyStr.drop (Z.to_nat (rfind c s)) s = String c rest ∧ rfind c rest = -1.
Proof.
  induction s as [|a s IH]; simpl rfind; [lia|].
  pose proof (rfind_bounds c s) as Hb.
  destruct (Z.leb_spec 0 (rfind c s)) as [Hr|Hr].
  - intros _. destruct (IH Hr) as (rest & Hd & Hrest).
    exists rest. split; [|done].
    replace (Z.to_nat (rfind c s + 1)) with (S (Z.to_nat (rfind c s))) by lia.
    done.
  - destruct (Ascii.eqb_spec a c) as [->|]; [|lia].
    intros _. exists s. split; [done|lia].
Qed.

Lemma rfind_cons_absent c a s : rfind c (String a s) = -1 → rfind c s = -1.
Proof.
  simpl. pose proof (rfind_bounds c s).
  destruct (Z.leb_spec 0 (rfind c s)); lia.
Qed.

End StringProperties.

(** ** Paths: [splitext] and [join] *)

Section PathProperties.
Implicit Types p s pre stem : string.

Lemma slice_to_0 p : slice_to p 0 = "".
Proof.
  rewrite slice_to_take by (pose proof (len_nonneg p); lia). by destruct p.
Qed.

(** The two parts that [splitext] returns make up the path. *)
Lemma splitext_app p : (splitext p).1 +:+ (splitext p).2 = p.
Proof.
  unfold splitext.
  pose proof (rfind_bounds sep_char p). pose proof (rfind_bounds extsep_char p).
  destruct (Z.ltb_spec (rfind sep_char p) (rfind extsep_char p)); simpl.
  - destruct (splitext_loop _ _ _); simpl.
    + apply slice_to_from. lia.
    + by rewrite slice_to_0, app_nil_r.
  - by rewrite slice_to_0, app_nil_r.
Qed.

(** The extension is empty, or it is a dot followed by characters that
    are neither dots nor separators. *)
Lemma splitext_ext_shape p :
  (splitext p).2 = "" ∨
  ∃ rest, (splitext p).2 = String extsep_char rest ∧
          rfind extsep_char rest = -1 ∧ rfind sep_char rest = -1.
Proof.
  unfold splitext.
  pose proof (rfind_bounds sep_char p) as Hs.
  pose proof (rfind_bounds extsep_char p) as Hd.
  destruct (Z.ltb_spec (rfind sep_char p) (rfind extsep_char p)) as [Hlt|];
    simpl; [|left; apply slice_to_0].
  destruct (splitext_loop _ _ _); simpl; [|left; apply slice_to_0].
  right. rewrite slice_from_drop by lia.
  destruct (rfind_drop extsep_char p) as (rest & Hdrop & Hrest); [lia|].
  exists rest. split; [done|]. split; [done|].
  pose proof (take_drop (Z.to_nat (rfind extsep_char p)) p) as Hp.
  rewrite Hdrop in Hp.
  pose proof (rfind_app sep_char (PyStr.take (Z.to_nat (rfind extsep_char p)) p)
                (String extsep_char rest)) as Happ.
  rewrite Hp in Happ.
  pose proof (rfind_bounds sep_char (String extsep_char rest)) as Hb.
  destruct (Z.leb_spec 0 (rfind sep_char (String extsep_char rest))) as [Hge|Hneg].
  - unfold len in Happ. rewrite length_take in Happ by (unfold len in Hd; lia). lia.
  - apply (rfind_cons_absent sep_char extsep_char). lia.
Qed.

(** Without an extension the base is the whole path. *)
Lemma splitext_no_ext p : (splitext p).2 = "" → (splitext p).1 = p.
Proof.
  intros Hext. pose proof (splitext_app p) as Hp.
  by rewrite Hext, app_nil_r in Hp.
Qed.

Lemma output_path_of_eq p :
  output_path_of p = (splitext p).1 +:+ "_rotated" +:+ (splitext p).2.
Proof. unfold output_path_of. by destruct (splitext p). Qed.

(** The output name is eight characters longer than the input name, so
    [rotate_face] never saves over the file it reads. *)
Lemma output_path_of_length p :
  String.length (output_path_of p) = (String.length p + 8)%nat.
Proof.
  rewrite output_path_of_eq, !length_app.
  rewrite <- (splitext_app p) at 3. rewrite length_app. simpl. lia.
Qed.

Lemma output_path_of_ne p : output_path_of p ≠ p.
Proof.
  intros Heq. pose proof (output_path_of_length p) as Hlen.
  rewrite Heq in Hlen. lia.
Qed.

End PathProperties.

Section FaceFileNames.
Implicit Types p s pre stem e base name : string.

(** A directory prefix: empty, or ending with a separator. *)
Lemma endswith_sep base : endswith base sep = true → ∃ q, base = q +:+ "/".
Proof.
  unfold endswith. intros [Heq Hlen%Z.leb_le]%andb_true_iff.
  apply String.eqb_eq in Heq. change (len sep) with 1 in *.
  rewrite slice_from_drop in Heq by lia.
  exists (PyStr.take (Z.to_nat (len base - 1)) base).
  unfold sep in Heq. rewrite <- Heq. by rewrite take_drop.
Qed.

(** Joining a directory with relative names prepends one and the same
    prefix to each of them. *)
Lemma join_relative base :
  ∃ pre, (pre = "" ∨ ∃ q, pre = q +:+ "/") ∧
         ∀ name, startswith name sep = false → join base [name] = pre +:+ name.
Proof.
  destruct base as [|a base'] eqn:Hbase.
  - exists "". split; [by left|]. intros name Hname.
    unfold join, join_step. simpl fold_left. by rewrite Hname.
  - rewrite <- Hbase. destruct (endswith base sep) eqn:Hends.
    + exists base. split; [right; by apply endswith_sep|].
      intros name Hname. unfold join, join_step. simpl fold_left.
      rewrite Hname, Hends. by subst base.
    + exists (base +:+ "/"). split; [right; by exists base|].
      intros name Hname. unfold join, join_step. simpl fold_left.
      rewrite Hname, Hends. subst base. simpl. by rewrite app_assoc.
Qed.

Lemma rfind_sep_prefix pre :
  pre = "" ∨ (∃ q, pre = q +:+ "/") → rfind sep_char pre = len pre - 1.
Proof.
  intros [->|[q ->]]; [done|].
  rewrite rfind_app, len_app.
  change (rfind sep_char "/") with 0. change (len "/") with 1.
  simpl. lia.
Qed.

(** Splitting a file name with a plain stem and a plain extension that
    stands behind a directory prefix. *)
Lemma splitext_plain pre c stem e :
  pre = "" ∨ (∃ q, pre = q +:+ "/") →
  rfind sep_char (String c stem) = -1 →
  rfind extsep_char (String c stem) = -1 →
  rfind extsep_char e = -1 →
  rfind sep_char e = -1 →
  splitext (pre +:+ String c stem +:+ String extsep_char e)
    = (pre +:+ String c stem, String extsep_char e).
Proof.
  intros Hpre Hs1 Hs2 He1 He2.
  set (name := String c stem +:+ String extsep_char e).
  assert (rfind sep_char (String extsep_char e) = -1) as Hse
    by (simpl; rewrite He2; done).
  assert (rfind extsep_char (String extsep_char e) = 0) as Hde
    by (simpl; rewrite He1; done).
  assert (rfind sep_char name = -1) as Hsn
    by (unfold name; rewrite rfind_app, Hse; done).
  assert (rfind extsep_char name = len stem + 1) as Hdn
    by (unfold name; rewrite rfind_app, Hde, len_cons; simpl; lia).
  assert (Ascii.eqb c extsep_char = false) as Hc.
  { simpl in Hs2. pose proof (rfind_bounds extsep_char stem).
    destruct (Z.leb_spec 0 (rfind extsep_char stem)); [lia|].
    destruct (Ascii.eqb c extsep_char); [lia|done]. }
  pose proof (len_nonneg pre) as Hlp. pose proof (len_nonneg stem) as Hls.
  assert (Hsp : rfind sep_char (pre +:+ name) = len pre - 1)
    by (rewrite rfind_app, Hsn; simpl; by apply rfind_sep_prefix).
  assert (Hdp : rfind extsep_char (pre +:+ name) = len pre + (len stem + 1)).
  { rewrite rfind_app, Hdn. destruct (Z.leb_spec 0 (len stem + 1)); [done|lia]. }
  assert (Hlen : len (pre +:+ name) = len pre + (len stem + 1) + (len e + 1))
    by (unfold name; rewrite !len_app, !len_cons; lia).
  pose proof (len_nonneg e) as Hle.
  unfold splitext. fold name. rewrite Hsp, Hdp.
  destruct (Z.ltb_spec (len pre - 1) (len pre + (len stem + 1))); [|lia].
  replace (Z.to_nat (len pre + (len stem + 1) - (len pre - 1 + 1)))
    with (S (Z.to_nat (len stem))) by lia.
  replace (len pre - 1 + 1) with (len pre) by lia.
  assert (slice (pre +:+ name) (len pre) (len pre + 1) = String c "") as Hslice.
  { unfold slice. rewrite !bound_inside by lia.
    replace (Z.to_nat (len pre + 1) - Z.to_nat (len pre))%nat with 1%nat by lia.
    unfold len. rewrite Nat2Z.id, drop_app_length. done. }
  simpl splitext_loop. rewrite Hslice.
  assert (String.eqb (String c "") extsep = false) as ->
    by (unfold extsep_char in Hc; simpl; by rewrite Hc).
  simpl andb. cbv iota.
  assert (pre +:+ name = (pre +:+ String c stem) +:+ String extsep_char e) as Hsplit
    by (unfold name; by rewrite app_assoc).
  assert (Z.to_nat (len pre + (len stem + 1)) = String.length (pre +:+ String c stem)) as Hn
    by (rewrite length_app; unfold len; simpl; lia).
  rewrite slice_to_take, slice_from_drop by lia.
  rewrite Hn, Hsplit, take_app_length, drop_app_length. done.
Qed.

End FaceFileNames.

Section FacePaths.
Implicit Types base : string.

Lemma output_path_of_join base (c : ascii) :
  Ascii.eqb c sep_char = false → Ascii.eqb c extsep_char = false →
  output_path_of (join base [String c ".jpg"]) = join base [String c "_rotated.jpg"] ∧
  (splitext (join base [String c "_rotated.jpg"])).2 = ".jpg".
Proof.
  intros Hsep Hdot.
  destruct (join_relative base) as (pre & Hpre & Hjoin).
  assert (∀ s, startswith (String c s) sep = false) as Hrel
    by (intros s; unfold sep_char in Hsep; simpl; by rewrite Hsep).
  rewrite (Hjoin _ (Hrel ".jpg")), (Hjoin _ (Hrel "_rotated.jpg")).
  assert (rfind sep_char (String c "") = -1) as Hs1 by (simpl; by rewrite Hsep).
  assert (rfind extsep_char (String c "") = -1) as Hs2 by (simpl; by rewrite Hdot).
  assert (rfind sep_char (String c "_rotated") = -1) as Hr1 by (simpl; by rewrite Hsep).
  assert (rfind extsep_char (String c "_rotated") = -1) as Hr2 by (simpl; by rewrite Hdot).
  pose proof (splitext_plain pre c "" "jpg" Hpre Hs1 Hs2 eq_refl eq_refl) as Hin.
  pose proof (splitext_plain pre c "_rotated" "jpg" Hpre Hr1 Hr2 eq_refl eq_refl) as Hout.
  change (String c "" +:+ String extsep_char "jpg") with (String c ".jpg") in Hin.
  change (String c "_rotated" +:+ String extsep_char "jpg")
    with (String c "_rotated.jpg") in Hout.
  split.
  - rewrite output_path_of_eq, Hin. simpl fst. simpl snd.
    by rewrite app_assoc.
  - by rewrite Hout.
Qed.

(** The names of the two faces and of their rotated copies. *)
Lemma top_output base :
  output_path_of (join base ["u.jpg"]) = join base ["u_rotated.jpg"] ∧
  (splitext (join base ["u_rotated.jpg"])).2 = ".jpg".
Proof. by apply (output_path_of_join base "u"). Qed.

Lemma bottom_output base :
  output_path_of (join base ["d.jpg"]) = join base ["d_rotated.jpg"] ∧
  (splitext (join base ["d_rotated.jpg"])).2 = ".jpg".
Proof. by apply (output_path_of_join base "d"). Qed.

(** Different relative names give different paths in one directory. *)
Lemma join_inj base (name1 name2 : string) :
  startswith name1 sep = false → startswith name2 sep = false →
  join base [name1] = join base [name2] → name1 = name2.
Proof.
  intros H1 H2. destruct (join_relative base) as (pre & _ & Hjoin).
  rewrite !Hjoin by done. apply String.app_inj.
Qed.

Lemma basename_join base (name : string) :
  startswith name sep = false → rfind sep_char name = -1 →
  basename (join base [name]) = name.
Proof.
  intros Hrel Hname. destruct (join_relative base) as (pre & Hpre & Hjoin).
  rewrite Hjoin by done. unfold basename.
  rewrite rfind_app, Hname. simpl. rewrite rfind_sep_prefix by done.
  pose proof (len_nonneg pre). pose proof (len_nonneg name).
  rewrite slice_from_drop by (rewrite len_app; lia).
  replace (len pre - 1 + 1) with (len pre) by lia.
  unfold len. by rewrite Nat2Z.id, drop_app_length.
Qed.

End FacePaths.

(** ** [rotate_face] and [main] *)

Section ScriptProperties.
Context {pixel : Type} `{Platform pixel}.

(** The world after a successful [rotate_face]: the output file holds
    the encoded image and the success line is printed. *)
#[local, warnings="-inconsistent-scopes"]
Abbreviation saved p out w :=
  (add_stdout (saved_message (output_path_of p))
     (set_files (<[output_path_of p := out]> (files w)) w)).

(** The [try] body either raises and leaves the world as it was, or
    saves the output file, prints the success line and returns the
    output path. *)
Lemma rotate_face_try_cases (p : string) (w : world) :
  (∃ e, rotate_face_try p w = (Raise e, w)) ∨
  (∃ data img out,
      files w !! p = Some data ∧ image_decode data = Return img ∧
      image_encode (splitext (output_path_of p)).2 (rotate_180 img) = Return out ∧
      write_error w (output_path_of p) = None ∧
      rotate_face_try p w = (Return (Some (output_path_of p)), saved p out w)).
Proof.
  unfold rotate_face_try, image_open, image_save, print.
  unfold mbind, py_bind, mret, py_ret.
  destruct (files w !! p) as [data|] eqn:Hfile; [|left; eauto].
  destruct (image_decode data) as [img|e] eqn:Hdec; [|left; eauto].
  destruct (image_encode _ (rotate_180 img)) as [out|e] eqn:Henc; [|left; eauto].
  destruct (write_error w _) as [e|] eqn:Hw; [left; eauto|].
  right. exists data, img, out. done.
Qed.

Lemma rotate_face_try_success (p : string) (w : world) data img out :
  files w !! p = Some data → image_decode data = Return img →
  image_encode (splitext (output_path_of p)).2 (rotate_180 img) = Return out →
  write_error w (output_path_of p) = None →
  rotate_face_try p w = (Return (Some (output_path_of p)), saved p out w).
Proof.
  intros Hfile Hdec Henc Hw.
  unfold rotate_face_try, image_open, image_save, print.
  unfold mbind, py_bind, mret, py_ret.
  by rewrite Hfile, Hdec, Henc, Hw.
Qed.

(** What the handler makes of an exception of the body. *)
Lemma rotate_face_caught (p : string) (w w1 : world) (e : exn) :
  rotate_face_try p w = (Raise e, w1) →
  rotate_face p w = (Return None, add_stdout (error_message p e) w1).
Proof.
  intros Htry. unfold rotate_face, try_except. by rewrite Htry.
Qed.

Lemma rotate_face_returned (p : string) (w w1 : world) r :
  rotate_face_try p w = (Return r, w1) → rotate_face p w = (Return r, w1).
Proof.
  intros Htry. unfold rotate_face, try_except. by rewrite Htry.
Qed.

(** [rotate_face] never raises: it returns [None] after printing the
    error line, or the output path after saving. *)
Lemma rotate_face_cases (p : string) (w : world) :
  (∃ e, rotate_face_try p w = (Raise e, w) ∧
        rotate_face p w = (Return None, add_stdout (error_message p e) w)) ∨
  (∃ data img out,
      files w !! p = Some data ∧ image_decode data = Return img ∧
      image_encode (splitext (output_path_of p)).2 (rotate_180 img) = Return out ∧
      write_error w (output_path_of p) = None ∧
      rotate_face p w = (Return (Some (output_path_of p)), saved p out w)).
Proof.
  destruct (rotate_face_try_cases p w) as [[e He]|(data & img & out & ? & ? & ? & ? & Hs)].
  - left. exists e. split; [done|]. by apply rotate_face_caught.
  - right. exists data, img, out. repeat split; try done.
    by apply rotate_face_returned.
Qed.

Lemma truthy_output_path (p : string) : truthy (output_path_of p) = true.
Proof.
  pose proof (output_path_of_length p) as Hlen.
  destruct (output_path_of p); [simpl in Hlen; lia|done].
Qed.

Lemma is_true_output_path (p : string) : is_true (Some (output_path_of p)) = true.
Proof. apply truthy_output_path. Qed.

Lemma error_message_names_path (p : string) (e : exn) :
  ∃ pre post, error_message p e = pre +:+ p +:+ post.
Proof. by exists "❌ Ошибка при обработке ", (": " +:+ e). Qed.

(** The statements of [main] for one face, followed by the rest [k] of
    the function: the test for the file, the call of [rotate_face] and
    the line about renaming. *)
#[local, warnings="-inconsistent-scopes"]
Abbreviation face_block p missing face k :=
  (is_file ← isfile p;
   (if negb is_file then print missing
    else rotated ← rotate_face p;
         if is_true rotated
         then print (rename_message (default "" rotated) face)
         else mret ());;
   k).

(** How the world [w'] after the statements for one face relates to the
    world [w] before them. *)
#[local, warnings="-inconsistent-scopes"]
Abbreviation face_post p missing face w w' :=
  (dirs w' = dirs w ∧
   (∀ q, q ≠ output_path_of p → files w' !! q = files w !! q) ∧
   (∃ printed, stdout w' = stdout w ++ printed) ∧
   (files w !! p = None → w' = add_stdout missing w) ∧
   (is_Some (files w !! p) →
      ∃ r w1, rotate_face p w = (Return r, w1) ∧
              w' = if is_true r
                   then add_stdout (rename_message (default "" r) face) w1
                   else w1) ∧
   (∀ data img out,
      files w !! p = Some data → image_decode data = Return img →
      image_encode (splitext (output_path_of p)).2 (rotate_180 img) = Return out →
      write_error w (output_path_of p) = None →
      w' = add_stdout (rename_message (output_path_of p) face) (saved p out w))).

Lemma face_block_post (p missing face : string) (w : world) :
  ∃ w', (∀ k : py unit, face_block p missing face k w = k w') ∧
        face_post p missing face w w'.
Proof.
  destruct (files w !! p) as [data|] eqn:Hfile.
  - destruct (rotate_face_cases p w)
      as [(e & Htry & Hface)|(data' & img & out & Hf & Hdec & Henc & Hw & Hface)].
    + exists (add_stdout (error_message p e) w). split.
      { intros k. unfold mbind, py_bind, isfile. rewrite Hfile.
        rewrite bool_decide_eq_true_2 by eauto. cbv beta iota delta [negb].
        by rewrite Hface. }
      split; [done|]. split; [done|]. split; [by eexists|].
      split; [intros; discriminate|]. split.
      { intros _. by exists None, (add_stdout (error_message p e) w). }
      intros data1 img1 out1 Hf1 Hdec1 Henc1 Hw1.
      rewrite (rotate_face_try_success p w data1 img1 out1) in Htry
        by (done || by rewrite Hfile).
      discriminate.
    + exists (add_stdout (rename_message (output_path_of p) face) (saved p out w)).
      split.
      { intros k. unfold mbind, py_bind, isfile. rewrite Hfile.
        rewrite bool_decide_eq_true_2 by eauto. cbv beta iota delta [negb].
        rewrite Hface. by rewrite is_true_output_path. }
      split; [done|]. split.
      { intros q Hq. simpl. by rewrite lookup_insert_ne. }
      split; [simpl; rewrite <- !(assoc_L (++)); by eexists|].
      split; [intros; congruence|]. split.
      { intros _. eexists _, _. split; [exact Hface|].
        by rewrite is_true_output_path. }
      intros data1 img1 out1 Hf1 Hdec1 Henc1 _.
      assert (data1 = data') as -> by congruence.
      assert (img1 = img) as -> by congruence.
      assert (out1 = out) as -> by congruence. done.
  - exists (add_stdout missing w). split.
    { intros k. unfold mbind, py_bind, isfile. rewrite Hfile.
      rewrite bool_decide_eq_false_2 by (intros [? ?]; discriminate). done. }
    split; [done|]. split; [done|]. split; [by eexists|].
    split; [done|]. split; [intros [? ?]; discriminate|].
    intros; discriminate.
Qed.

(** Running single statements. *)
Lemma run_isdir {A} (p : string) (k : bool → py A) (w : world) :
  (isdir p ≫= k) w = k (bool_decide (p ∈ dirs w)) w.
Proof. reflexivity. Qed.

Lemma run_print {A} (s : string) (k : unit → py A) (w : world) :
  (print s ≫= k) w = k () (add_stdout s w).
Proof. reflexivity. Qed.

#[local, warnings="-inconsistent-scopes"]
Abbreviation top_of argv := (join (base_path_of argv) ["u.jpg"]).
#[local, warnings="-inconsistent-scopes"]
Abbreviation bottom_of argv := (join (base_path_of argv) ["d.jpg"]).
#[local, warnings="-inconsistent-scopes"]
Abbreviation top_rotated_of argv := (join (base_path_of argv) ["u_rotated.jpg"]).
#[local, warnings="-inconsistent-scopes"]
Abbreviation bottom_rotated_of argv := (join (base_path_of argv) ["d_rotated.jpg"]).
#[local, warnings="-inconsistent-scopes"]
Abbreviation started argv w := (add_stdout (processing_message (base_path_of argv)) w).
#[local, warnings="-inconsistent-scopes"]
Abbreviation finished w := (add_stdout note_message (add_stdout done_message w)).

(** Without the directory [main] prints one line and returns. *)
Lemma main_no_directory (argv : list string) (w : world) :
  base_path_of argv ∉ dirs w →
  main argv w = (Return (), add_stdout (no_directory_message (base_path_of argv)) w).
Proof.
  intros Hdir. unfold main. cbv zeta. rewrite run_isdir.
  by rewrite bool_decide_eq_false_2.
Qed.

(** In an existing directory [main] prints the heading, goes through the
    two faces one after the other, and prints the two closing lines. *)
Lemma main_in_directory (argv : list string) (w : world) :
  base_path_of argv ∈ dirs w →
  ∃ w1 w2,
    face_post (top_of argv) (top_missing_message (top_of argv)) "u.jpg"
      (started argv w) w1 ∧
    face_post (bottom_of argv) (bottom_missing_message (bottom_of argv)) "d.jpg"
      w1 w2 ∧
    main argv w = (Return (), finished w2).
Proof.
  intros Hdir. unfold main. cbv zeta. rewrite run_isdir.
  rewrite bool_decide_eq_true_2 by done. cbv beta iota delta [negb].
  rewrite run_print.
  destruct (face_block_post (top_of argv) (top_missing_message (top_of argv))
              "u.jpg" (started argv w)) as (w1 & Hk1 & Hpost1).
  destruct (face_block_post (bottom_of argv) (bottom_missing_message (bottom_of argv))
              "d.jpg" w1) as (w2 & Hk2 & Hpost2).
  exists w1, w2. split; [exact Hpost1|]. split; [exact Hpost2|].
  rewrite Hk1, Hk2. reflexivity.
Qed.

Lemma main_returns (argv : list string) (w : world) : (main argv w).1 = Return ().
Proof.
  destruct (decide (base_path_of argv ∈ dirs w)) as [Hdir|Hdir].
  - destruct (main_in_directory argv w Hdir) as (w1 & w2 & _ & _ & ->). done.
  - by rewrite main_no_directory.
Qed.

(** C3. When [rotate_face] returns a path, the path is the input path
    with [_rotated] put between the base and the extension that
    [os.path.splitext] finds, and the rotated image has been saved
    there. *)
Theorem rotate_face_output_path (p out : string) (w w' : world) :
  rotate_face p w = (Return (Some out), w') →
  ∃ base ext,
    splitext p = (base, ext) ∧
    base +:+ ext = p ∧
    out = base +:+ "_rotated" +:+ ext ∧
    (ext = "" ∨
     ∃ rest, ext = String extsep_char rest ∧
             rfind extsep_char rest = -1 ∧ rfind sep_char rest = -1) ∧
    is_Some (files w' !! out).
Proof.
  intros Hface.
  destruct (rotate_face_cases p w)
    as [(e & _ & He)|(data & img & bytes & _ & _ & _ & _ & Hs)].
  { rewrite He in Hface. discriminate. }
  rewrite Hs in Hface. injection Hface as <- <-.
  exists (splitext p).1, (splitext p).2.
  split; [by destruct (splitext p)|].
  split; [apply splitext_app|].
  split; [apply output_path_of_eq|].
  split; [apply splitext_ext_shape|].
  simpl. rewrite lookup_insert_eq. by eexists.
Qed.

(** A path without a dot after its last separator has no extension. *)
Lemma splitext_without_dot (p : string) :
  rfind extsep_char p ≤ rfind sep_char p → (splitext p).2 = "".
Proof.
  intros Hle. unfold splitext.
  destruct (Z.ltb_spec (rfind sep_char p) (rfind extsep_char p)); [lia|].
  apply slice_to_0.
Qed.

(** C9. For a path without an extension the base is the whole path, so
    [rotate_face] saves under the path followed by [_rotated]. *)
Theorem rotate_face_no_extension (p : string) :
  (splitext p).2 = "" →
  (splitext p).1 = p ∧
  output_path_of p = p +:+ "_rotated" ∧
  rotate_face_try p =
    (img ← image_open p;
     image_save (rotate_180 img) (p +:+ "_rotated");;
     print (saved_message (p +:+ "_rotated"));;
     mret (Some (p +:+ "_rotated"))).
Proof.
  intros Hext. pose proof (splitext_no_ext p Hext) as Hbase.
  assert (output_path_of p = p +:+ "_rotated") as Hout.
  { rewrite output_path_of_eq, Hext, Hbase. by rewrite app_nil_r. }
  split; [done|]. split; [done|].
  unfold rotate_face_try. by rewrite Hout.
Qed.

(** C8. Without an argument [main] works in [public/vr/willow], with one
    argument in the directory given. *)
Theorem main_directory_argument (prog d : string) :
  base_path_of [prog] = "public/vr/willow" ∧
  base_path_of [prog; d] = d ∧
  main [prog] = main [prog; "public/vr/willow"].
Proof. repeat split. Qed.

Lemma base_path_of_first (prog d : string) (rest : list string) :
  base_path_of (prog :: d :: rest) = d.
Proof.
  unfold base_path_of.
  destruct (Z.ltb_spec 1 (Z.of_nat (length (prog :: d :: rest)))) as [_|Hlen];
    [done|].
  simpl length in Hlen. lia.
Qed.

(** C10. Arguments after the first are ignored: the run is the run with
    the first argument alone. *)
Theorem main_ignores_further_arguments (prog d : string) (rest : list string) :
  base_path_of (prog :: d :: rest) = d ∧
  main (prog :: d :: rest) = main [prog; d].
Proof.
  split; [apply base_path_of_first|].
  unfold main. by rewrite !base_path_of_first.
Qed.

(** C6. When the directory does not exist, [main] prints the line that
    says so and nothing else, and leaves every file as it was. *)
Theorem main_missing_directory (argv : list string) (w : world) :
  base_path_of argv ∉ dirs w →
  (main argv w).1 = Return () ∧
  dirs (main argv w).2 = dirs w ∧
  files (main argv w).2 = files w ∧
  stdout (main argv w).2 = stdout w ++ [no_directory_message (base_path_of argv)].
Proof. intros Hdir. by rewrite main_no_directory. Qed.

Lemma join_ne (base name1 name2 : string) :
  startswith name1 sep = false → startswith name2 sep = false →
  name1 ≠ name2 → join base [name1] ≠ join base [name2].
Proof. intros H1 H2 Hne Heq. by apply Hne, (join_inj base). Qed.

Lemma top_output_path argv : output_path_of (top_of argv) = top_rotated_of argv.
Proof. apply top_output. Qed.

Lemma bottom_output_path argv : output_path_of (bottom_of argv) = bottom_rotated_of argv.
Proof. apply bottom_output. Qed.

Lemma top_output_ext argv : (splitext (output_path_of (top_of argv))).2 = ".jpg".
Proof. rewrite top_output_path. apply top_output. Qed.

Lemma bottom_output_ext argv : (splitext (output_path_of (bottom_of argv))).2 = ".jpg".
Proof. rewrite bottom_output_path. apply bottom_output. Qed.


(** C5. An exception raised in the body of [rotate_face] is caught:
    [rotate_face] prints the error line, which contains the path, and
    returns [None]. [rotate_face] and [main] never raise, and in a
    directory that holds both faces [main] calls [rotate_face] on each
    of them whatever the call on the other one returned. *)
Theorem rotate_face_catches_errors (p : string) (e : exn) (w w1 : world) :
  rotate_face_try p w = (Raise e, w1) →
  rotate_face p w = (Return None, add_stdout (error_message p e) w1) ∧
  (∃ pre post, error_message p e = pre +:+ p +:+ post) ∧
  (∀ q w0, ∃ r w0', rotate_face q w0 = (Return r, w0')) ∧
  (∀ argv w0, (main argv w0).1 = Return ()) ∧
  (∀ argv w0,
     base_path_of argv ∈ dirs w0 →
     is_Some (files w0 !! top_of argv) →
     is_Some (files w0 !! bottom_of argv) →
     ∃ r_top w_top r_bottom w_bottom,
       rotate_face (top_of argv) (started argv w0) = (Return r_top, w_top) ∧
       rotate_face (bottom_of argv)
         (if is_true r_top
          then add_stdout (rename_message (default "" r_top) "u.jpg") w_top
          else w_top) = (Return r_bottom, w_bottom) ∧
       main argv w0 =
         (Return (),
          finished (if is_true r_bottom
                    then add_stdout (rename_message (default "" r_bottom) "d.jpg") w_bottom
                    else w_bottom))).
Proof.
  intros Htry. split; [by apply rotate_face_caught|].
  split; [apply error_message_names_path|]. split.
  { intros q w0.
    destruct (rotate_face_cases q w0) as [(e0 & _ & ->)|(? & ? & ? & _ & _ & _ & _ & ->)];
      by eexists _, _. }
  split; [apply main_returns|].
  intros argv w0 Hdir Htop Hbottom.
  destruct (main_in_directory argv w0 Hdir)
    as (w_1 & w_2 & (_ & Hf1 & _ & _ & Hp1 & _) & (_ & _ & _ & _ & Hp2 & _) & ->).
  destruct (Hp1 Htop) as (r_top & w_top & Hface1 & ->).
  assert (is_Some (files (if is_true r_top
            then add_stdout (rename_message (default "" r_top) "u.jpg") w_top
            else w_top) !! bottom_of argv)) as Hbottom1.
  { rewrite Hf1; [done|]. rewrite top_output_path. by apply join_ne. }
  destruct (Hp2 Hbottom1) as (r_bottom & w_bottom & Hface2 & ->).
  by exists r_top, w_top, r_bottom, w_bottom.
Qed.

End ScriptProperties.

(** ** The theorems at work on sample inputs *)

Section Samples.
Import RawCodec.

Example output_path_of_u_jpg : output_path_of "u.jpg" = "u_rotated.jpg".
Proof. reflexivity. Qed.

Example output_path_of_hidden : output_path_of "pano/.hidden" = "pano/.hidden_rotated".
Proof. reflexivity. Qed.

Lemma rotate_180_pixel_sample :
  size (rotate_180 picture) = (3, 2)%nat ∧
  getpixel (rotate_180 picture) (2, 1)%nat = getpixel picture (0, 0)%nat.
Proof.
  destruct (rotate_180_pixel picture 0 0) as (Hsize & _ & _ & Hpixel).
  - split; [reflexivity|]. repeat constructor.
  - simpl. lia.
  - simpl. lia.
  - split; [exact Hsize|exact Hpixel].
Defined.

Lemma rotate_face_output_path_sample :
  ∃ base ext,
    splitext "pano/u.jpg" = (base, ext) ∧
    base +:+ ext = "pano/u.jpg" ∧
    "pano/u_rotated.jpg" = base +:+ "_rotated" +:+ ext ∧
    (ext = "" ∨
     ∃ rest, ext = String extsep_char rest ∧
             rfind extsep_char rest = -1 ∧ rfind sep_char rest = -1) ∧
    is_Some (files (rotate_face "pano/u.jpg" both_faces).2 !! "pano/u_rotated.jpg").
Proof.
  apply (rotate_face_output_path "pano/u.jpg" "pano/u_rotated.jpg" both_faces).
  vm_compute. reflexivity.
Defined.

Lemma rotate_face_no_extension_sample : output_path_of "pano/u" = "pano/u_rotated".
Proof.
  destruct (rotate_face_no_extension (H := writable) "pano/u") as (_ & Hout & _).
  - vm_compute. reflexivity.
  - exact Hout.
Defined.

Lemma sample_directory_exists (w : world) :
  dirs w = {["pano"]} → base_path_of command_line ∈ dirs w.
Proof. intros ->. change (base_path_of command_line) with "pano". set_solver. Qed.

Lemma main_missing_directory_sample :
  stdout (main ["rotate_cubemap_faces.py"; "nowhere"] both_faces).2
    = ["❌ Папка nowhere не существует"] ∧
  files (main ["rotate_cubemap_faces.py"; "nowhere"] both_faces).2 = files both_faces.
Proof.
  destruct (main_missing_directory ["rotate_cubemap_faces.py"; "nowhere"] both_faces)
    as (_ & _ & Hfiles & Hout).
  - change (base_path_of ["rotate_cubemap_faces.py"; "nowhere"]) with "nowhere".
    change (dirs both_faces) with ({["pano"]} : gset string).
    intros Hin. apply elem_of_singleton in Hin. discriminate.
  - split; [exact Hout|exact Hfiles].
Defined.

Lemma rotate_face_catches_errors_sample :
  rotate_face "pano/u.jpg" top_corrupt
    = (Return None,
       add_stdout "❌ Ошибка при обработке pano/u.jpg: cannot identify image file"
         top_corrupt).
Proof.
  destruct (rotate_face_catches_errors "pano/u.jpg" "cannot identify image file"
              top_corrupt top_corrupt) as (Hcaught & _).
  - vm_compute. reflexivity.
  - exact Hcaught.
Defined.


End Samples.

(** * Further properties of the script *)

(** ** The name of the output file *)

Section OutputName.
Implicit Types p s t : string.

Lemma take_1_drop_app (i : nat) s t :
  (i < String.length s)%nat →
  PyStr.take 1 (PyStr.drop i (s +:+ t)) = PyStr.take 1 (PyStr.drop i s).
Proof.
  revert s. induction i as [|i IH]; intros [|a s] Hi; simpl in Hi; try lia.
  - by rewrite app_cons.
  - rewrite app_cons. simpl. apply IH. lia.
Qed.

Lemma slice_char (s : string) (i : Z) :
  0 ≤ i < len s → slice s i (i + 1) = PyStr.take 1 (PyStr.drop (Z.to_nat i) s).
Proof.
  intros Hi. unfold slice. rewrite !bound_inside by lia.
  by replace (Z.to_nat (i + 1) - Z.to_nat i)%nat with 1%nat by lia.
Qed.

(** A character of the left part of a concatenation. *)
Lemma slice_char_app_l s t (i : Z) :
  0 ≤ i < len s → slice (s +:+ t) i (i + 1) = slice s i (i + 1).
Proof.
  intros Hi. pose proof (len_nonneg t).
  rewrite !slice_char by (rewrite ?len_app; lia).
  apply take_1_drop_app. unfold len in Hi. lia.
Qed.

(** The first character of the right part of a concatenation. *)
Lemma slice_char_app_r s (c : ascii) t :
  slice (s +:+ String c t) (len s) (len s + 1) = String c "".
Proof.
  pose proof (len_nonneg s). pose proof (len_nonneg t).
  rewrite slice_char by (rewrite len_app, len_cons; lia).
  unfold len. by rewrite Nat2Z.id, drop_app_length.
Qed.

(** The loop of [splitext] reads the characters it is asked to look at
    and no others. *)
Lemma splitext_loop_agree p s (n : nat) (i : Z) :
  (∀ j, i ≤ j < i + Z.of_nat n → slice p j (j + 1) = slice s j (j + 1)) →
  splitext_loop p n i = splitext_loop s n i.
Proof.
  revert i. induction n as [|n IH]; intros i Hsame; [done|].
  simpl. rewrite (Hsame i) by lia.
  destruct (negb _); [done|]. apply IH. intros j Hj. apply Hsame. lia.
Qed.

(** The loop stops at the latest at a character that is not a dot. *)
Lemma splitext_loop_finds p (n : nat) (i j : Z) :
  i ≤ j < i + Z.of_nat n →
  String.eqb (slice p j (j + 1)) extsep = false →
  splitext_loop p n i = true.
Proof.
  revert i. induction n as [|n IH]; intros i Hj Hchar; [lia|].
  simpl. destruct (String.eqb (slice p i (i + 1)) extsep) eqn:Hi; [|done].
  simpl. apply IH; [|done].
  destruct (decide (j = i)) as [->|]; [congruence|lia].
Qed.

(** An empty extension comes from the last branch of [splitext]. *)
Lemma splitext_no_ext_branch p :
  (splitext p).2 = "" →
  (rfind sep_char p <? rfind extsep_char p)
  && splitext_loop p (Z.to_nat (rfind extsep_char p - (rfind sep_char p + 1)))
       (rfind sep_char p + 1) = false.
Proof.
  unfold splitext. pose proof (rfind_bounds sep_char p).
  pose proof (rfind_bounds extsep_char p).
  destruct (_ && _) eqn:Hcond; [|done].
  apply andb_true_iff in Hcond as [Hlt%Z.ltb_lt _]. simpl.
  rewrite slice_from_drop by lia.
  destruct (rfind_drop extsep_char p) as (rest & -> & _); [lia|]. discriminate.
Qed.

(** The extension of the output name is the extension of the input
    name, and its base is the base of the input name followed by
    [_rotated]. *)
Lemma splitext_output_path p :
  splitext (output_path_of p) = ((splitext p).1 +:+ "_rotated", (splitext p).2).
Proof.
  rewrite output_path_of_eq.
  pose proof (splitext_app p) as Hp.
  destruct (splitext_ext_shape p) as [Hext|(rest & Hext & Hdot & Hsep)].
  - pose proof (splitext_no_ext_branch p Hext) as Hcond.
    rewrite Hext, app_nil_r in Hp. rewrite Hext, Hp, app_nil_r.
    pose proof (rfind_bounds sep_char p). pose proof (rfind_bounds extsep_char p).
    assert (rfind sep_char (p +:+ "_rotated") = rfind sep_char p) as Hs
      by (by rewrite rfind_app).
    assert (rfind extsep_char (p +:+ "_rotated") = rfind extsep_char p) as Hd
      by (by rewrite rfind_app).
    unfold splitext. rewrite Hs, Hd, slice_to_0.
    destruct (Z.ltb_spec (rfind sep_char p) (rfind extsep_char p)) as [Hlt|]; [|done].
    simpl andb in *.
    rewrite (splitext_loop_agree _ p), Hcond; [done|].
    intros j Hj. apply slice_char_app_l. lia.
  - rewrite Hext. set (base := (splitext p).1) in *.
    pose proof (len_nonneg base) as Hlb. pose proof (len_nonneg rest) as Hlr.
    pose proof (rfind_bounds sep_char base) as Hsb.
    assert (rfind sep_char (String extsep_char rest) = -1) as Hse
      by (simpl; by rewrite Hsep).
    assert (rfind extsep_char (String extsep_char rest) = 0) as Hde
      by (simpl; by rewrite Hdot).
    assert (base +:+ "_rotated" +:+ String extsep_char rest
            = (base +:+ "_rotated") +:+ String extsep_char rest) as Hassoc
      by (by rewrite app_assoc).
    assert (len (base +:+ "_rotated") = len base + 8) as Hlen8
      by (by rewrite len_app).
    assert (rfind sep_char (base +:+ "_rotated" +:+ String extsep_char rest)
            = rfind sep_char base) as Hs.
    { rewrite Hassoc, rfind_app, Hse.
      change (0 <=? -1) with false. cbv iota. by rewrite rfind_app. }
    assert (rfind extsep_char (base +:+ "_rotated" +:+ String extsep_char rest)
            = len base + 8) as Hd.
    { rewrite Hassoc, rfind_app, Hde, Hlen8.
      change (0 <=? 0) with true. cbv iota. lia. }
    unfold splitext. rewrite Hs, Hd.
    destruct (Z.ltb_spec (rfind sep_char base) (len base + 8)); [|lia].
    rewrite (splitext_loop_finds _ _ _ (len base));
      [|lia|].
    2:{ change (base +:+ "_rotated" +:+ String extsep_char rest)
          with (base +:+ String "_" ("rotated" +:+ String extsep_char rest)).
        by rewrite slice_char_app_r. }
    simpl andb. cbv iota.
    assert (len (base +:+ "_rotated" +:+ String extsep_char rest)
            = len base + 8 + (len rest + 1)) as Hlen
      by (rewrite Hassoc, len_app, Hlen8, len_cons; lia).
    rewrite slice_to_take, slice_from_drop by lia.
    replace (Z.to_nat (len base + 8)) with (String.length (base +:+ "_rotated"))
      by (rewrite <- Hlen8; unfold len; lia).
    by rewrite Hassoc, take_app_length, drop_app_length.
Qed.

End OutputName.

(** ** One call of [rotate_face] *)

Section FurtherProperties.
Context {pixel : Type} `{Platform pixel}.

#[local, warnings="-inconsistent-scopes"]
Abbreviation saved_in p out w :=
  (add_stdout (saved_message (output_path_of p))
     (set_files (<[output_path_of p := out]> (files w)) w)).

(** X2. Every call of [rotate_face] returns without raising and prints
    exactly one line: the error line when it returns [None], and the
    line naming the output path when it returns that path, which is
    never the empty string and at which there is then a file. *)
Theorem rotate_face_prints_one_line (p : string) (w : world) :
  ∃ r line,
    (rotate_face p w).1 = Return r ∧
    stdout (rotate_face p w).2 = stdout w ++ [line] ∧
    ((r = None ∧ ∃ e, line = error_message p e) ∨
     (r = Some (output_path_of p) ∧ is_true r = true ∧
      line = saved_message (output_path_of p) ∧
      is_Some (files (rotate_face p w).2 !! output_path_of p))).
Proof.
  destruct (rotate_face_cases p w)
    as [(e & _ & ->)|(data & img & out & _ & _ & _ & _ & ->)]; cbn [fst snd].
  - exists None, (error_message p e). split; [done|]. split; [done|].
    left. split; [done|]. by exists e.
  - exists (Some (output_path_of p)), (saved_message (output_path_of p)).
    split; [done|]. split; [done|]. right.
    split; [done|]. split; [apply is_true_output_path|]. split; [done|].
    cbn [files add_stdout set_files]. rewrite lookup_insert_eq. by eexists.
Qed.

(** X3. Called on a path at which there is no file, [rotate_face]
    prints the error line for that path, returns [None] and changes
    nothing else. *)
Theorem rotate_face_missing_file (p : string) (w : world) :
  files w !! p = None →
  ∃ e, rotate_face p w = (Return None, add_stdout (error_message p e) w).
Proof.
  intros Hfile. exists (no_such_file p).
  apply rotate_face_caught.
  unfold rotate_face_try, image_open, mbind, py_bind. by rewrite Hfile.
Qed.

(** X4. The output name has the extension of the input name, so the
    copy is saved in the format of the original, and naming the copy of
    a copy adds [_rotated] a second time before the extension. *)
Theorem output_path_keeps_extension (p : string) :
  splitext (output_path_of p) = ((splitext p).1 +:+ "_rotated", (splitext p).2) ∧
  output_path_of (output_path_of p)
    = (splitext p).1 +:+ "_rotated" +:+ "_rotated" +:+ (splitext p).2.
Proof.
  split; [apply splitext_output_path|].
  rewrite (output_path_of_eq (output_path_of p)), splitext_output_path.
  cbn [fst snd]. by rewrite app_assoc.
Qed.

Lemma reverse_lines_twice (ls : list (list pixel)) :
  reverse (reverse <$> reverse (reverse <$> ls)) = ls.
Proof.
  rewrite fmap_reverse, reverse_involutive, <- list_fmap_compose.
  rewrite <- (list_fmap_id ls) at 2.
  apply list_fmap_ext. intros i line _. apply reverse_involutive.
Qed.

(** ** A run of [main] *)

#[local, warnings="-inconsistent-scopes"]
Abbreviation top_path argv := (join (base_path_of argv) ["u.jpg"]).
#[local, warnings="-inconsistent-scopes"]
Abbreviation bottom_path argv := (join (base_path_of argv) ["d.jpg"]).
#[local, warnings="-inconsistent-scopes"]
Abbreviation top_rotated argv := (join (base_path_of argv) ["u_rotated.jpg"]).
#[local, warnings="-inconsistent-scopes"]
Abbreviation bottom_rotated argv := (join (base_path_of argv) ["d_rotated.jpg"]).


Lemma rename_message_top (argv : list string) :
  rename_message (top_rotated argv) "u.jpg"
  = "ℹ️ Чтобы использовать повернутое изображение, переименуйте u_rotated.jpg в u.jpg".
Proof. unfold rename_message. by rewrite basename_join. Qed.

Lemma rename_message_bottom (argv : list string) :
  rename_message (bottom_rotated argv) "d.jpg"
  = "ℹ️ Чтобы использовать повернутое изображение, переименуйте d_rotated.jpg в d.jpg".
Proof. unfold rename_message. by rewrite basename_join. Qed.

(** X7. When both faces are there and both are rotated and saved,
    [main] prints seven lines: the heading, for each face the line
    naming the saved copy and the hint to rename it, which shows the
    bare file name whatever the directory, and the two closing lines. *)
Theorem main_both_rotated_output (argv : list string) (w : world)
    (data_u out_u data_d out_d : list Byte.byte) (img_u img_d : Image pixel) :
  base_path_of argv ∈ dirs w →
  files w !! top_path argv = Some data_u →
  image_decode data_u = Return img_u →
  image_encode ".jpg" (rotate_180 img_u) = Return out_u →
  files w !! bottom_path argv = Some data_d →
  image_decode data_d = Return img_d →
  image_encode ".jpg" (rotate_180 img_d) = Return out_d →
  (∀ w0, write_error w0 (top_rotated argv) = None) →
  (∀ w0, write_error w0 (bottom_rotated argv) = None) →
  stdout (main argv w).2 =
    stdout w ++
    [processing_message (base_path_of argv);
     saved_message (top_rotated argv);
     "ℹ️ Чтобы использовать повернутое изображение, переименуйте u_rotated.jpg в u.jpg";
     saved_message (bottom_rotated argv);
     "ℹ️ Чтобы использовать повернутое изображение, переименуйте d_rotated.jpg в d.jpg";
     done_message; note_message].
Proof.
  intros Hdir Hu Hdu Heu Hb Hdb Heb Hwu Hwb.
  destruct (main_in_directory argv w Hdir)
    as (w1 & w2 & (_ & Hf1 & _ & _ & _ & Hs1) & (_ & _ & _ & _ & _ & Hs2) & ->).
  specialize (Hs1 data_u img_u out_u Hu Hdu).
  rewrite top_output_ext, top_output_path in Hs1.
  specialize (Hs1 Heu (Hwu _)). subst w1.
  specialize (Hs2 data_d img_d out_d).
  rewrite bottom_output_ext, bottom_output_path in Hs2.
  rewrite Hs2; [|cbn [files add_stdout set_files];
                  by rewrite lookup_insert_ne by (by apply join_ne)
                |done..].
  cbn [snd stdout add_stdout set_files].
  rewrite <- (rename_message_top argv), <- (rename_message_bottom argv).
  rewrite <- !(assoc_L (++)). done.
Qed.

(** X8. In an existing directory that holds neither face, [main] prints
    the heading, the two lines about the missing files and, all the
    same, the two closing lines; it changes no file. *)
Theorem main_both_missing (argv : list string) (w : world) :
  base_path_of argv ∈ dirs w →
  files w !! top_path argv = None →
  files w !! bottom_path argv = None →
  (main argv w).1 = Return () ∧
  files (main argv w).2 = files w ∧
  stdout (main argv w).2 =
    stdout w ++
    [processing_message (base_path_of argv);
     top_missing_message (top_path argv);
     bottom_missing_message (bottom_path argv);
     done_message; note_message].
Proof.
  intros Hdir Hu Hb.
  destruct (main_in_directory argv w Hdir)
    as (w1 & w2 & (_ & _ & _ & Ha1 & _) & (_ & _ & _ & Ha2 & _) & ->).
  rewrite (Ha1 Hu) in Ha2. rewrite (Ha2 Hb).
  cbn [fst snd files stdout add_stdout].
  split; [done|]. split; [done|]. by rewrite <- !(assoc_L (++)).
Qed.


End FurtherProperties.

(** ** The further properties on sample inputs *)

Section FurtherSamples.
Import RawCodec.

Lemma rotate_face_missing_file_sample :
  ∃ e, rotate_face "pano/u.jpg" bottom_only
       = (Return None, add_stdout (error_message "pano/u.jpg" e) bottom_only).
Proof. apply rotate_face_missing_file. vm_compute. reflexivity. Defined.

Lemma main_both_rotated_output_sample :
  stdout (main command_line both_faces).2 =
    [processing_message "pano";
     saved_message "pano/u_rotated.jpg";
     "ℹ️ Чтобы использовать повернутое изображение, переименуйте u_rotated.jpg в u.jpg";
     saved_message "pano/d_rotated.jpg";
     "ℹ️ Чтобы использовать повернутое изображение, переименуйте d_rotated.jpg в d.jpg";
     done_message; note_message].
Proof.
  apply (main_both_rotated_output command_line both_faces
           three_bytes [Byte.x03; Byte.x02; Byte.x01]
           [Byte.x0a; Byte.x0b] [Byte.x0b; Byte.x0a]
           (mkImage 3 1 [three_bytes]) (mkImage 2 1 [[Byte.x0a; Byte.x0b]]));
    reflexivity.
Defined.

Lemma main_both_missing_sample :
  files (main command_line no_faces).2 = files no_faces ∧
  stdout (main command_line no_faces).2 =
    [processing_message "pano";
     top_missing_message "pano/u.jpg";
     bottom_missing_message "pano/d.jpg";
     done_message; note_message].
Proof.
  destruct (main_both_missing command_line no_faces) as (_ & Hfiles & Hout).
  - by apply sample_directory_exists.
  - reflexivity.
  - reflexivity.
  - split; [exact Hfiles|exact Hout].
Defined.


End FurtherSamples.

(** * The script over a file system with links *)

Section LinkedProperties.
Context {pixel : Type} `{Linked.Platform pixel}.
Implicit Types w : Linked.world.
Implicit Types p q t : string.

(** What an operation may change when it writes through the name [p]:
    the file that [p] denotes and the link [p] itself, nothing else. *)
#[local, warnings="-inconsistent-scopes"]
Abbreviation writes_through p w w' :=
  (Linked.dirs w' = Linked.dirs w ∧
   (∀ t, t ≠ Linked.resolve w p → Linked.files w' !! t = Linked.files w !! t) ∧
   (∀ q, q ≠ p → Linked.links w' !! q = Linked.links w !! q) ∧
   (∀ q, is_Some (Linked.content w q) → is_Some (Linked.content w' q))).

#[local, warnings="-inconsistent-scopes"]
Abbreviation linked_saved p out w :=
  (Linked.add_stdout (saved_message (output_path_of p))
     (Linked.set_files
        (<[Linked.resolve w (output_path_of p) := out]> (Linked.files w)) w)).

Lemma linked_resolve_frame p q w w' :
  (∀ q, q ≠ p → Linked.links w' !! q = Linked.links w !! q) →
  q ≠ p → Linked.resolve w' q = Linked.resolve w q.
Proof. intros Hlinks Hq. unfold Linked.resolve. by rewrite Hlinks. Qed.

(** The content of a file that the name written through does not denote
    stays as it was. *)
Lemma linked_content_frame p q w w' :
  writes_through p w w' →
  Linked.resolve w q ≠ Linked.resolve w p →
  Linked.content w' q = Linked.content w q.
Proof.
  intros (_ & Hfiles & Hlinks & _) Hq. unfold Linked.content.
  rewrite (linked_resolve_frame p q w w') by (done || congruence).
  by apply Hfiles.
Qed.

Lemma writes_through_refl p w : writes_through p w w.
Proof. done. Qed.

Lemma writes_through_stdout p s w w' :
  writes_through p w w' → writes_through p w (Linked.add_stdout s w').
Proof. done. Qed.

(** Storing bytes in the file that [p] denotes. *)
Lemma writes_through_store p data w :
  writes_through p w
    (Linked.set_files (<[Linked.resolve w p := data]> (Linked.files w)) w).
Proof.
  split; [done|]. split; [intros t Ht; simpl; by rewrite lookup_insert_ne|].
  split; [done|]. intros q Hq. unfold Linked.content, Linked.resolve in *. simpl.
  destruct (decide (default p (Linked.links w !! p) = default q (Linked.links w !! q)))
    as [->|Hne].
  - rewrite lookup_insert_eq. by eexists.
  - by rewrite lookup_insert_ne.
Qed.

(** Storing bytes in a file that did not exist and removing its name
    again. *)
Lemma writes_through_removed p data w :
  Linked.path_exists w p = false →
  writes_through p w
    (Linked.remove_quietly p
       (Linked.set_files (<[Linked.resolve w p := data]> (Linked.files w)) w)).
Proof.
  intros Hnew.
  assert (Linked.content w p = None) as Hnone.
  { unfold Linked.path_exists in Hnew. apply orb_false_iff in Hnew as [_ Hc].
    apply bool_decide_eq_false in Hc.
    destruct (Linked.content w p); [destruct Hc; by eexists|done]. }
  unfold Linked.remove_quietly.
  destruct (Linked.remove_refused _ p); [apply writes_through_store|].
  cbn [Linked.links Linked.set_files].
  destruct (Linked.links w !! p) as [target|] eqn:Hlink.
  - split; [done|]. cbn [Linked.files Linked.links Linked.set_links Linked.set_files].
    split; [intros t Ht; by rewrite lookup_insert_ne|].
    split; [intros q Hq; by rewrite lookup_delete_ne|].
    intros q Hq. unfold Linked.content, Linked.resolve in *.
    cbn [Linked.files Linked.links Linked.set_links Linked.set_files].
    destruct (decide (q = p)) as [->|Hqp].
    { rewrite Hnone in Hq. by destruct Hq. }
    rewrite lookup_delete_ne by done. rewrite Hlink in *. simpl in *.
    destruct (decide (target = default q (Linked.links w !! q))) as [Heq|Hne].
    + rewrite <- Heq in Hq. rewrite Hnone in Hq. by destruct Hq.
    + by rewrite lookup_insert_ne.
  - assert (Linked.resolve w p = p) as Hself
      by (unfold Linked.resolve; by rewrite Hlink).
    rewrite Hself. split; [done|].
    cbn [Linked.files Linked.links Linked.set_links Linked.set_files].
    split; [intros t Ht; by rewrite lookup_delete_ne, lookup_insert_ne|].
    split; [done|].
    intros q Hq. unfold Linked.content in *.
    change (Linked.resolve (Linked.set_files _ w) q) with (Linked.resolve w q).
    rewrite Hself in Hnone.
    destruct (decide (Linked.resolve w q = p)) as [Heq|Hne].
    + rewrite Heq, Hnone in Hq. by destruct Hq.
    + cbn [Linked.files Linked.set_files].
      by rewrite lookup_delete_ne, lookup_insert_ne.
Qed.

(** [Image.save] raises after writing through the name only, or stores
    the encoded bytes in the file that the name denotes. *)
Lemma linked_image_save_cases (img : Image pixel) (path : string) w :
  (∃ e w', Linked.image_save img path w = (Raise e, w') ∧
           Linked.stdout w' = Linked.stdout w ∧ writes_through path w w') ∨
  (∃ data,
     Linked.extension_error (splitext path).2 = None ∧
     Linked.open_error w path = None ∧
     Linked.image_encode (splitext path).2 img = (data, None) ∧
     Linked.image_save img path w
       = (Return (),
          Linked.set_files (<[Linked.resolve w path := data]> (Linked.files w)) w)).
Proof.
  unfold Linked.image_save.
  destruct (Linked.extension_error _) as [e|] eqn:Hext.
  { left. exists e, w. split; [done|]. split; [done|]. apply writes_through_refl. }
  destruct (Linked.open_error w path) as [e|] eqn:Hopen.
  { left. exists e, w. split; [done|]. split; [done|]. apply writes_through_refl. }
  destruct (Linked.image_encode _ img) as [data [e|]] eqn:Henc.
  - left. destruct (Linked.path_exists w path) eqn:Hexists; cbn [negb].
    + eexists e, _. split; [done|]. split; [done|]. apply writes_through_store.
    + eexists e, _. split; [done|]. split.
      * unfold Linked.remove_quietly.
        destruct (Linked.remove_refused _ _); [done|].
        by destruct (Linked.links _ !! _).
      * by apply writes_through_removed.
  - right. by exists data.
Qed.

(** An exception of the body of [rotate_face] is caught and reported;
    otherwise the rotated image has been stored in the file that the
    output name denotes. *)
Lemma linked_rotate_face_cases p w :
  (∃ e w', Linked.rotate_face p w
             = (Return None, Linked.add_stdout (error_message p e) w') ∧
           Linked.stdout w' = Linked.stdout w ∧
           writes_through (output_path_of p) w w') ∨
  (∃ data img out,
     Linked.content w p = Some data ∧
     Linked.image_decode data = Return img ∧
     Linked.extension_error (splitext (output_path_of p)).2 = None ∧
     Linked.open_error w (output_path_of p) = None ∧
     Linked.image_encode (splitext (output_path_of p)).2 (rotate_180 img)
       = (out, None) ∧
     Linked.rotate_face p w
       = (Return (Some (output_path_of p)), linked_saved p out w)).
Proof.
  unfold Linked.rotate_face, Linked.try_except, Linked.rotate_face_try.
  unfold mbind, Linked.py_bind, Linked.image_open.
  destruct (Linked.content w p) as [data|] eqn:Hfile.
  2:{ left. eexists _, w. split; [done|]. split; [done|]. apply writes_through_refl. }
  destruct (Linked.image_decode data) as [img|e] eqn:Hdec.
  2:{ left. eexists e, w. split; [done|]. split; [done|]. apply writes_through_refl. }
  destruct (linked_image_save_cases (rotate_180 img) (output_path_of p) w)
    as [(e & w' & -> & Hout & Hthrough)|(out & Hext & Hopen & Henc & ->)].
  - left. by exists e, w'.
  - right. by exists data, img, out.
Qed.

Lemma linked_rotate_face_success p w data (img : Image pixel) out :
  Linked.content w p = Some data →
  Linked.image_decode data = Return img →
  Linked.extension_error (splitext (output_path_of p)).2 = None →
  Linked.open_error w (output_path_of p) = None →
  Linked.image_encode (splitext (output_path_of p)).2 (rotate_180 img) = (out, None) →
  Linked.rotate_face p w = (Return (Some (output_path_of p)), linked_saved p out w).
Proof.
  intros Hfile Hdec Hext Hopen Henc.
  unfold Linked.rotate_face, Linked.try_except, Linked.rotate_face_try.
  unfold mbind, Linked.py_bind, Linked.image_open, Linked.image_save.
  by rewrite Hfile, Hdec, Hext, Hopen, Henc.
Qed.

(** Every call of [rotate_face] returns, prints one line and writes
    through the output name only. *)
Lemma linked_rotate_face_effect p w :
  ∃ r line,
    (Linked.rotate_face p w).1 = Return r ∧
    Linked.stdout (Linked.rotate_face p w).2 = Linked.stdout w ++ [line] ∧
    writes_through (output_path_of p) w (Linked.rotate_face p w).2.
Proof.
  destruct (linked_rotate_face_cases p w)
    as [(e & w' & -> & Hout & Hthrough)|(data & img & out & _ & _ & _ & _ & _ & ->)];
    cbn [fst snd].
  - eexists _, _. split; [done|]. split; [cbn; by rewrite Hout|].
    by apply writes_through_stdout.
  - eexists _, _. split; [done|]. split; [done|].
    apply writes_through_stdout, writes_through_store.
Qed.

(** The statements of [main] for one face, followed by the rest [k]. *)
#[local, warnings="-inconsistent-scopes"]
Abbreviation linked_face_block p missing face k :=
  (is_file ← Linked.isfile p;
   (if negb is_file then Linked.print missing
    else rotated ← Linked.rotate_face p;
         if is_true rotated
         then Linked.print (rename_message (default "" rotated) face)
         else mret ());;
   k).

#[local, warnings="-inconsistent-scopes"]
Abbreviation linked_face_post p face w w' :=
  (writes_through (output_path_of p) w w' ∧
   (∀ data img out,
      Linked.content w p = Some data →
      Linked.image_decode data = Return img →
      Linked.extension_error (splitext (output_path_of p)).2 = None →
      Linked.open_error w (output_path_of p) = None →
      Linked.image_encode (splitext (output_path_of p)).2 (rotate_180 img)
        = (out, None) →
      w' = Linked.add_stdout (rename_message (output_path_of p) face)
             (linked_saved p out w))).

Lemma linked_face_block_post (p missing face : string) w :
  ∃ w', (∀ k : Linked.py unit, linked_face_block p missing face k w = k w') ∧
        linked_face_post p face w w'.
Proof.
  destruct (Linked.content w p) as [data|] eqn:Hfile.
  - destruct (linked_rotate_face_cases p w)
      as [(e & w1 & Hface & Hout & Hthrough)
         |(data' & img & out & Hf & Hdec & Hext & Hopen & Henc & Hface)].
    + exists (Linked.add_stdout (error_message p e) w1). split.
      { intros k. unfold mbind, Linked.py_bind, Linked.isfile. rewrite Hfile.
        rewrite bool_decide_eq_true_2 by eauto. cbv beta iota delta [negb].
        by rewrite Hface. }
      split; [by apply writes_through_stdout|].
      intros data1 img1 out1 Hf1 Hdec1 Hext1 Hopen1 Henc1.
      rewrite (linked_rotate_face_success p w data1 img1 out1) in Hface
        by (done || by rewrite Hfile).
      discriminate.
    + exists (Linked.add_stdout (rename_message (output_path_of p) face)
                (linked_saved p out w)).
      split.
      { intros k. unfold mbind, Linked.py_bind, Linked.isfile. rewrite Hfile.
        rewrite bool_decide_eq_true_2 by eauto. cbv beta iota delta [negb].
        rewrite Hface. by rewrite is_true_output_path. }
      split; [do 2 apply writes_through_stdout; apply writes_through_store|].
      intros data1 img1 out1 Hf1 Hdec1 _ _ Henc1.
      assert (data1 = data') as -> by congruence.
      assert (img1 = img) as -> by congruence.
      assert (out1 = out) as -> by congruence. done.
  - exists (Linked.add_stdout missing w). split.
    { intros k. unfold mbind, Linked.py_bind, Linked.isfile. rewrite Hfile.
      rewrite bool_decide_eq_false_2 by (intros [? ?]; discriminate). done. }
    split; [apply writes_through_stdout, writes_through_refl|].
    intros; discriminate.
Qed.

Lemma linked_run_isdir {A} (p : string) (k : bool → Linked.py A) w :
  (Linked.isdir p ≫= k) w
  = k (bool_decide (Linked.resolve w p ∈ Linked.dirs w)) w.
Proof. reflexivity. Qed.

Lemma linked_run_print {A} (s : string) (k : unit → Linked.py A) w :
  (Linked.print s ≫= k) w = k () (Linked.add_stdout s w).
Proof. reflexivity. Qed.

#[local, warnings="-inconsistent-scopes"]
Abbreviation linked_top argv := (join (base_path_of argv) ["u.jpg"]).
#[local, warnings="-inconsistent-scopes"]
Abbreviation linked_bottom argv := (join (base_path_of argv) ["d.jpg"]).
#[local, warnings="-inconsistent-scopes"]
Abbreviation linked_top_rotated argv := (join (base_path_of argv) ["u_rotated.jpg"]).
#[local, warnings="-inconsistent-scopes"]
Abbreviation linked_bottom_rotated argv :=
  (join (base_path_of argv) ["d_rotated.jpg"]).
#[local, warnings="-inconsistent-scopes"]
Abbreviation linked_started argv w :=
  (Linked.add_stdout (processing_message (base_path_of argv)) w).
#[local, warnings="-inconsistent-scopes"]
Abbreviation linked_finished w :=
  (Linked.add_stdout note_message (Linked.add_stdout done_message w)).

Lemma linked_main_no_directory (argv : list string) w :
  Linked.resolve w (base_path_of argv) ∉ Linked.dirs w →
  Linked.main argv w
  = (Return (), Linked.add_stdout (no_directory_message (base_path_of argv)) w).
Proof.
  intros Hdir. unfold Linked.main. cbv zeta. rewrite linked_run_isdir.
  by rewrite bool_decide_eq_false_2.
Qed.

Lemma linked_main_in_directory (argv : list string) w :
  Linked.resolve w (base_path_of argv) ∈ Linked.dirs w →
  ∃ w1 w2,
    linked_face_post (linked_top argv) "u.jpg" (linked_started argv w) w1 ∧
    linked_face_post (linked_bottom argv) "d.jpg" w1 w2 ∧
    Linked.main argv w = (Return (), linked_finished w2).
Proof.
  intros Hdir. unfold Linked.main. cbv zeta. rewrite linked_run_isdir.
  rewrite bool_decide_eq_true_2 by done. cbv beta iota delta [negb].
  rewrite linked_run_print.
  destruct (linked_face_block_post (linked_top argv)
              (top_missing_message (linked_top argv)) "u.jpg"
              (linked_started argv w)) as (w1 & Hk1 & Hpost1).
  destruct (linked_face_block_post (linked_bottom argv)
              (bottom_missing_message (linked_bottom argv)) "d.jpg" w1)
    as (w2 & Hk2 & Hpost2).
  exists w1, w2. split; [exact Hpost1|]. split; [exact Hpost2|].
  rewrite Hk1, Hk2. reflexivity.
Qed.

(** Two writes, one after the other, through two different names. *)
Lemma linked_two_writes p1 p2 w w1 w2 :
  p1 ≠ p2 → writes_through p1 w w1 → writes_through p2 w1 w2 →
  Linked.dirs w2 = Linked.dirs w ∧
  (∀ q, Linked.resolve w q ≠ Linked.resolve w p1 →
        Linked.resolve w q ≠ Linked.resolve w p2 →
        Linked.content w2 q = Linked.content w q) ∧
  (∀ q, is_Some (Linked.content w q) → is_Some (Linked.content w2 q)).
Proof.
  intros Hne H1 H2.
  pose proof H1 as (Hd1 & _ & Hl1 & Hk1). pose proof H2 as (Hd2 & _ & _ & Hk2).
  split; [by rewrite Hd2, Hd1|]. split; [|by auto].
  intros q Hq1 Hq2.
  rewrite (linked_content_frame p2 q w1 w2 H2), (linked_content_frame p1 q w w1 H1);
    [done|done|].
  assert (q ≠ p1) as Hqp1 by congruence.
  rewrite (linked_resolve_frame p1 q w w1), (linked_resolve_frame p1 p2 w w1)
    by done.
  done.
Qed.

(** C4. In a directory that holds both faces, where neither
    [u_rotated.jpg] nor [d_rotated.jpg] denotes the file of [u.jpg] or
    of [d.jpg], [main] leaves the content of [u.jpg] and of [d.jpg] as
    it was and changes no file other than the two that [u_rotated.jpg]
    and [d_rotated.jpg] denote; when decoding, encoding and writing
    succeed and the two output names denote different files, these hold
    the encoded rotated images. *)
Theorem main_keeps_unlinked_originals (argv : list string) w :
  Linked.resolve w (base_path_of argv) ∈ Linked.dirs w →
  is_Some (Linked.content w (linked_top argv)) →
  is_Some (Linked.content w (linked_bottom argv)) →
  Linked.resolve w (linked_top_rotated argv) ≠ Linked.resolve w (linked_top argv) →
  Linked.resolve w (linked_top_rotated argv) ≠ Linked.resolve w (linked_bottom argv) →
  Linked.resolve w (linked_bottom_rotated argv) ≠ Linked.resolve w (linked_top argv) →
  Linked.resolve w (linked_bottom_rotated argv)
    ≠ Linked.resolve w (linked_bottom argv) →
  Linked.content (Linked.main argv w).2 (linked_top argv)
    = Linked.content w (linked_top argv) ∧
  Linked.content (Linked.main argv w).2 (linked_bottom argv)
    = Linked.content w (linked_bottom argv) ∧
  (∀ q, Linked.resolve w q ≠ Linked.resolve w (linked_top_rotated argv) →
        Linked.resolve w q ≠ Linked.resolve w (linked_bottom_rotated argv) →
        Linked.content (Linked.main argv w).2 q = Linked.content w q) ∧
  Linked.dirs (Linked.main argv w).2 = Linked.dirs w ∧
  (∀ data_u img_u out_u data_d img_d out_d,
     Linked.content w (linked_top argv) = Some data_u →
     Linked.image_decode data_u = Return img_u →
     Linked.image_encode ".jpg" (rotate_180 img_u) = (out_u, None) →
     Linked.content w (linked_bottom argv) = Some data_d →
     Linked.image_decode data_d = Return img_d →
     Linked.image_encode ".jpg" (rotate_180 img_d) = (out_d, None) →
     Linked.extension_error ".jpg" = None →
     (∀ w0, Linked.open_error w0 (linked_top_rotated argv) = None) →
     (∀ w0, Linked.open_error w0 (linked_bottom_rotated argv) = None) →
     Linked.resolve w (linked_top_rotated argv)
       ≠ Linked.resolve w (linked_bottom_rotated argv) →
     Linked.content (Linked.main argv w).2 (linked_top_rotated argv) = Some out_u ∧
     Linked.content (Linked.main argv w).2 (linked_bottom_rotated argv) = Some out_d).
Proof.
  intros Hdir _ _ Huu Hud Hdu Hdd.
  destruct (linked_main_in_directory argv w Hdir)
    as (w1 & w2 & (Ht1 & Hs1) & (Ht2 & Hs2) & ->).
  rewrite top_output_path in Ht1. rewrite bottom_output_path in Ht2.
  assert (writes_through (linked_top_rotated argv) w w1) as Ht1' by exact Ht1.
  destruct (linked_two_writes (linked_top_rotated argv) (linked_bottom_rotated argv)
              w w1 w2) as (Hdirs & Hframe & _); [by apply join_ne|done|done|].
  cbn [snd].
  change (Linked.dirs (linked_finished w2)) with (Linked.dirs w2).
  assert (∀ q, Linked.content (linked_finished w2) q = Linked.content w2 q) as Hfin
    by done.
  rewrite !Hfin.
  split; [apply Hframe; congruence|]. split; [apply Hframe; congruence|].
  split; [intros q Hq1 Hq2; by apply Hframe|]. split; [done|].
  intros data_u img_u out_u data_d img_d out_d Hu Hdecu Hencu Hb Hdecb Hencb
    Hext Hopenu Hopenb Hne.
  specialize (Hs1 data_u img_u out_u Hu Hdecu).
  rewrite top_output_ext, top_output_path in Hs1.
  specialize (Hs1 Hext (Hopenu _) Hencu).
  specialize (Hs2 data_d img_d out_d).
  rewrite bottom_output_ext, bottom_output_path in Hs2.
  rewrite (linked_content_frame (linked_top_rotated argv) _ w w1 Ht1') in Hs2
    by congruence.
  specialize (Hs2 Hb Hdecb Hext (Hopenb _) Hencb).
  rewrite Hs2, Hs1. unfold Linked.content, Linked.resolve.
  cbn [Linked.files Linked.links Linked.add_stdout Linked.set_files].
  fold (Linked.resolve w (linked_top_rotated argv)).
  fold (Linked.resolve w (linked_bottom_rotated argv)).
  split.
  - rewrite lookup_insert_ne by congruence. apply lookup_insert_eq.
  - apply lookup_insert_eq.
Qed.

(** X9. Whatever the arguments and the file system, [main] returns
    without raising, leaves the directories as they were, changes the
    content of no file other than the two that [u_rotated.jpg] and
    [d_rotated.jpg] of its directory denote, and leaves every file that
    could be read before readable. *)
Theorem main_writes_through_outputs (argv : list string) w :
  (Linked.main argv w).1 = Return () ∧
  Linked.dirs (Linked.main argv w).2 = Linked.dirs w ∧
  (∀ q, Linked.resolve w q ≠ Linked.resolve w (linked_top_rotated argv) →
        Linked.resolve w q ≠ Linked.resolve w (linked_bottom_rotated argv) →
        Linked.content (Linked.main argv w).2 q = Linked.content w q) ∧
  (∀ q, is_Some (Linked.content w q) →
        is_Some (Linked.content (Linked.main argv w).2 q)).
Proof.
  destruct (decide (Linked.resolve w (base_path_of argv) ∈ Linked.dirs w))
    as [Hdir|Hdir]; [|by rewrite linked_main_no_directory].
  destruct (linked_main_in_directory argv w Hdir)
    as (w1 & w2 & (Ht1 & _) & (Ht2 & _) & ->).
  rewrite top_output_path in Ht1. rewrite bottom_output_path in Ht2.
  assert (writes_through (linked_top_rotated argv) w w1) as Ht1' by exact Ht1.
  destruct (linked_two_writes (linked_top_rotated argv) (linked_bottom_rotated argv)
              w w1 w2) as (Hdirs & Hframe & Hkeeps); [by apply join_ne|done|done|].
  cbn [fst snd]. split; [done|]. split; [exact Hdirs|].
  split; [exact Hframe|exact Hkeeps].
Qed.

(** X1. [rotate_face] leaves the directories as they were and changes
    the content of no file other than the one that the output name
    denotes; the file it reads keeps its content unless the output name
    denotes that very file; every file that could be read before can
    still be read. *)
Theorem rotate_face_writes_through_output p w :
  Linked.dirs (Linked.rotate_face p w).2 = Linked.dirs w ∧
  (∀ q, Linked.resolve w q ≠ Linked.resolve w (output_path_of p) →
        Linked.content (Linked.rotate_face p w).2 q = Linked.content w q) ∧
  (Linked.resolve w (output_path_of p) ≠ Linked.resolve w p →
   Linked.content (Linked.rotate_face p w).2 p = Linked.content w p) ∧
  (∀ q, is_Some (Linked.content w q) →
        is_Some (Linked.content (Linked.rotate_face p w).2 q)).
Proof.
  destruct (linked_rotate_face_effect p w) as (r & line & _ & _ & Hthrough).
  pose proof Hthrough as (Hdirs & _ & _ & Hkeeps).
  split; [exact Hdirs|].
  split; [intros q Hq; by apply (linked_content_frame (output_path_of p))|].
  split; [intros Hq; apply (linked_content_frame (output_path_of p)); congruence|].
  exact Hkeeps.
Qed.

(** X5. When the output name does not denote the file that is read, a
    second successful call on the same path returns the same output
    path and writes the same bytes: the files after the second call are
    the files after the first. *)
Theorem rotate_face_twice_unlinked (p out1 out2 : string) w w1 w2 :
  Linked.resolve w (output_path_of p) ≠ Linked.resolve w p →
  Linked.rotate_face p w = (Return (Some out1), w1) →
  Linked.rotate_face p w1 = (Return (Some out2), w2) →
  out2 = out1 ∧ Linked.files w2 = Linked.files w1 ∧
  Linked.stdout w2 = Linked.stdout w ++ [saved_message out1; saved_message out1].
Proof.
  intros Hne Hfirst Hsecond.
  destruct (linked_rotate_face_cases p w)
    as [(e & w' & He & _)|(data & img & out & Hf & Hdec & _ & _ & Henc & Hs)].
  { rewrite He in Hfirst. discriminate. }
  rewrite Hs in Hfirst. injection Hfirst as <- <-.
  destruct (linked_rotate_face_cases p (linked_saved p out w))
    as [(e & w' & He & _)|(data' & img' & out' & Hf' & Hdec' & _ & _ & Henc' & Hs')].
  { rewrite He in Hsecond. discriminate. }
  rewrite Hs' in Hsecond. injection Hsecond as <- <-.
  unfold Linked.content in Hf, Hf'.
  change (Linked.resolve (linked_saved p out w) p) with (Linked.resolve w p) in Hf'.
  cbn [Linked.files Linked.add_stdout Linked.set_files] in Hf'.
  rewrite lookup_insert_ne in Hf' by done.
  assert (data' = data) as -> by congruence.
  assert (img' = img) as -> by congruence.
  assert (out' = out) as -> by congruence.
  split; [done|].
  change (Linked.resolve (linked_saved p out w) (output_path_of p))
    with (Linked.resolve w (output_path_of p)).
  cbn [Linked.files Linked.stdout Linked.add_stdout Linked.set_files].
  split; [apply insert_insert_eq|]. by rewrite <- (assoc_L (++)).
Qed.

(** X6. When the decoder reads back what the encoder wrote, and the
    path, its output name and the output name of that one denote three
    different files, rotating the rotated copy stores the encoding of
    the original image in the third file; the original file and the
    first copy keep their content. *)
Theorem rotate_face_of_unlinked_copy p w
    (data out1 out2 : list Byte.byte) (img : Image pixel) :
  Linked.content w p = Some data →
  Linked.image_decode data = Return img →
  Linked.extension_error (splitext p).2 = None →
  Linked.image_encode (splitext p).2 (rotate_180 img) = (out1, None) →
  Linked.image_decode out1 = Return (rotate_180 img) →
  Linked.image_encode (splitext p).2 img = (out2, None) →
  (∀ w0 q, Linked.open_error w0 q = None) →
  Linked.resolve w (output_path_of p) ≠ Linked.resolve w p →
  Linked.resolve w (output_path_of (output_path_of p)) ≠ Linked.resolve w p →
  Linked.resolve w (output_path_of (output_path_of p))
    ≠ Linked.resolve w (output_path_of p) →
  ∃ w1 w2,
    Linked.rotate_face p w = (Return (Some (output_path_of p)), w1) ∧
    Linked.rotate_face (output_path_of p) w1
      = (Return (Some (output_path_of (output_path_of p))), w2) ∧
    Linked.content w2 (output_path_of (output_path_of p)) = Some out2 ∧
    Linked.content w2 (output_path_of p) = Some out1 ∧
    Linked.content w2 p = Some data.
Proof.
  intros Hf Hdec Hext Henc1 Hback Henc2 Hopen Hne1 Hne2 Hne3.
  assert ((splitext (output_path_of p)).2 = (splitext p).2) as Hext1
    by (by rewrite splitext_output_path).
  assert ((splitext (output_path_of (output_path_of p))).2 = (splitext p).2) as Hext2
    by (by rewrite !splitext_output_path).
  assert (rotate_180 (rotate_180 img) = img) as Htwice.
  { destruct img as [wd ht ls]. unfold rotate_180. cbn [width height lines].
    by rewrite reverse_lines_twice. }
  exists (linked_saved p out1 w),
         (linked_saved (output_path_of p) out2 (linked_saved p out1 w)).
  split.
  { apply (linked_rotate_face_success p w data img out1);
      [done|done|by rewrite Hext1|apply Hopen|by rewrite Hext1]. }
  split.
  { apply (linked_rotate_face_success (output_path_of p) _ out1 (rotate_180 img) out2);
      [|done|by rewrite Hext2|apply Hopen|by rewrite Hext2, Htwice].
    unfold Linked.content.
    change (Linked.resolve (linked_saved p out1 w) (output_path_of p))
      with (Linked.resolve w (output_path_of p)).
    cbn [Linked.files Linked.add_stdout Linked.set_files]. apply lookup_insert_eq. }
  unfold Linked.content in *.
  change (Linked.resolve (linked_saved (output_path_of p) out2 (linked_saved p out1 w)))
    with (Linked.resolve w).
  change (Linked.resolve (linked_saved p out1 w)) with (Linked.resolve w).
  cbn [Linked.files Linked.add_stdout Linked.set_files].
  split; [apply lookup_insert_eq|].
  split.
  - rewrite lookup_insert_ne by done. apply lookup_insert_eq.
  - by rewrite !lookup_insert_ne by done.
Qed.

End LinkedProperties.

(** ** The linked file system on sample inputs *)

Section LinkedSamples.
Import RawCodec.

Ltac differ := let Heq := fresh in intros Heq; vm_compute in Heq; discriminate Heq.

(** C4 needs its condition on the links: with [u_rotated.jpg] a link to
    [u.jpg] in a directory that holds both faces, [main] writes the
    rotated image into [u.jpg]. *)
Lemma main_overwrites_linked_original :
  Linked.resolve Linked.linked_to_original (base_path_of command_line)
    ∈ Linked.dirs Linked.linked_to_original ∧
  Linked.content Linked.linked_to_original "pano/u.jpg" = Some three_bytes ∧
  is_Some (Linked.content Linked.linked_to_original "pano/d.jpg") ∧
  Linked.content (Linked.main command_line Linked.linked_to_original).2 "pano/u.jpg"
    = Some [Byte.x03; Byte.x02; Byte.x01] ∧
  Linked.content (Linked.main command_line Linked.linked_to_original).2 "pano/u.jpg"
    ≠ Linked.content Linked.linked_to_original "pano/u.jpg".
Proof.
  split; [vm_compute; set_solver|]. split; [reflexivity|].
  split; [by eexists|]. split; [reflexivity|]. differ.
Qed.

Lemma linked_sample_directory :
  Linked.resolve Linked.both_faces (base_path_of command_line)
    ∈ Linked.dirs Linked.both_faces.
Proof. vm_compute. set_solver. Qed.

Lemma main_keeps_unlinked_originals_sample :
  Linked.content (Linked.main command_line Linked.both_faces).2 "pano/u.jpg"
    = Some three_bytes ∧
  Linked.content (Linked.main command_line Linked.both_faces).2 "pano/u_rotated.jpg"
    = Some [Byte.x03; Byte.x02; Byte.x01] ∧
  Linked.content (Linked.main command_line Linked.both_faces).2 "pano/d_rotated.jpg"
    = Some [Byte.x0b; Byte.x0a].
Proof.
  destruct (main_keeps_unlinked_originals command_line Linked.both_faces)
    as (Htop & _ & _ & _ & Hsaved);
    [apply linked_sample_directory|by eexists|by eexists|differ..|].
  split; [exact Htop|].
  apply (Hsaved three_bytes (mkImage 3 1 [three_bytes]) _
           [Byte.x0a; Byte.x0b] (mkImage 2 1 [[Byte.x0a; Byte.x0b]]) _);
    try reflexivity.
  differ.
Defined.

Lemma rotate_face_twice_unlinked_sample :
  Linked.files
    (Linked.rotate_face "pano/a.png" (Linked.rotate_face "pano/a.png" Linked.with_png).2).2
  = Linked.files (Linked.rotate_face "pano/a.png" Linked.with_png).2.
Proof.
  destruct (rotate_face_twice_unlinked "pano/a.png" "pano/a_rotated.png"
              "pano/a_rotated.png" Linked.with_png
              (Linked.rotate_face "pano/a.png" Linked.with_png).2
              (Linked.rotate_face "pano/a.png"
                 (Linked.rotate_face "pano/a.png" Linked.with_png).2).2)
    as (_ & Hfiles & _).
  - differ.
  - vm_compute. reflexivity.
  - vm_compute. reflexivity.
  - exact Hfiles.
Defined.

Lemma rotate_face_of_unlinked_copy_sample :
  ∃ w1 w2,
    Linked.rotate_face "pano/a.png" Linked.with_png
      = (Return (Some (output_path_of "pano/a.png")), w1) ∧
    Linked.rotate_face (output_path_of "pano/a.png") w1
      = (Return (Some (output_path_of (output_path_of "pano/a.png"))), w2) ∧
    Linked.content w2 (output_path_of (output_path_of "pano/a.png"))
      = Some three_bytes ∧
    Linked.content w2 (output_path_of "pano/a.png")
      = Some [Byte.x03; Byte.x02; Byte.x01] ∧
    Linked.content w2 "pano/a.png" = Some three_bytes.
Proof.
  apply (rotate_face_of_unlinked_copy "pano/a.png" Linked.with_png three_bytes
           [Byte.x03; Byte.x02; Byte.x01] three_bytes (mkImage 3 1 [three_bytes]));
    try reflexivity; differ.
Defined.

End LinkedSamples.
